(** * msticpy.data.remap_columns: the column remapping and filtering engine

    A shallow embedding of [src/msticpy/data/remap_columns.py]
    ([valid_config], [__df_filter], [df_filter], [map_fields],
    [prepare_object]) together with the fragment of Python and pandas the
    module relies on.

    Layout:
    - [outcome]: the result of running Python code (a value, a raised
      exception, or a behaviour of pandas that lies outside the fragment
      modelled here);
    - Python values ([pyval]) with iteration, subscripting and [type()];
    - [Module pd]: data frames as values, then as mutable objects on a heap
      ([M] is the state-and-exception monad of the interpreter);
    - the five functions of the module, statement by statement;
    - a heap-free description of the filter ([Module Sem]) proved equal to
      the embedded code, and the theorems.

    Scope of the pandas model (pandas 1.x, where [DataFrame.append] exists
    and keeps the column order of its operands):
    - cells hold [None], NaN, booleans, integers and strings; there are no
      finite float cells and columns carry no dtype.  The one comparison
      whose result depends on the dtype, an integer above [2^53] in
      magnitude against a float, is modelled as pandas computes it on an
      int64 column, and the theorems that depend on its result exclude it;
    - column labels are strings; row labels (the index) are not modelled,
      since no operation used here aligns two different frames on them;
    - selecting a label that occurs twice among the columns, assigning or
      renaming to a label that is not a string, filling a column with a
      literal that is not a cell (a finite float, a list, a dict) and
      comparing a column with a list or a dict are reported as
      [Unmodelled]; no theorem below concludes [Unmodelled].
    - a dict is the list of its items in insertion order, keys distinct. *)

From Stdlib Require Import ZArith String Ascii List Bool Lia.
From stdpp Require Import base list strings pretty.
Import ListNotations.

#[local] Set Warnings "-register-all".

Open Scope string_scope.
Open Scope list_scope.
Open Scope Z_scope.

(** ** Outcomes *)

Inductive pyfloat :=
  | FNan
  | FInf (negative : bool)
  | FFin (m e : Z).                      (* the dyadic number m * 2^e *)

Inductive pyval :=
  | PNone
  | PBool (b : bool)
  | PInt (z : Z)
  | PFloat (f : pyfloat)
  | PStr (s : string)
  | PList (l : list pyval)
  | PDict (d : list (string * pyval)).   (* items in insertion order *)

Definition dict := list (string * pyval).

Inductive exn :=
  | Exception (msg : string)
  | KeyError (key : pyval)
  | TypeError
  | IndexError
  | AttributeError.

Inductive outcome (A : Type) :=
  | Ret (a : A)
  | Raise (e : exn)
  | Unmodelled.
Arguments Ret {A} a.
Arguments Raise {A} e.
Arguments Unmodelled {A}.

Definition outcome_bind {A B} (f : A → outcome B) (o : outcome A) : outcome B :=
  match o with
  | Ret a => f a
  | Raise e => Raise e
  | Unmodelled => Unmodelled
  end.

#[global] Instance outcome_ret : MRet outcome := @Ret.
#[global] Instance outcome_mbind : MBind outcome := @outcome_bind.

(** ** Python values *)

Inductive pytype := TNone | TBool | TInt | TFloat | TStr | TList | TDict.

(** [type(v)]: the exact class, so [type(True)] is [bool] and not [int]. *)
Definition py_type (v : pyval) : pytype :=
  match v with
  | PNone => TNone
  | PBool _ => TBool
  | PInt _ => TInt
  | PFloat _ => TFloat
  | PStr _ => TStr
  | PList _ => TList
  | PDict _ => TDict
  end.

Definition pytype_eqb (a b : pytype) : bool :=
  match a, b with
  | TNone, TNone | TBool, TBool | TInt, TInt | TFloat, TFloat
  | TStr, TStr | TList, TList | TDict, TDict => true
  | _, _ => false
  end.

(** [type(v) in ts] *)
Definition type_in (v : pyval) (ts : list pytype) : bool :=
  existsb (pytype_eqb (py_type v)) ts.

(** [v == s] for a string literal [s] *)
Definition py_eq_str (v : pyval) (s : string) : bool :=
  match v with
  | PStr s' => String.eqb s' s
  | _ => false
  end.

(** [v is None] *)
Definition py_is_None (v : pyval) : bool :=
  match v with
  | PNone => true
  | _ => false
  end.

Fixpoint dict_get (d : dict) (k : string) : option pyval :=
  match d with
  | [] => None
  | (k', v) :: rest => if String.eqb k' k then Some v else dict_get rest k
  end.

(** [k in d] *)
Definition dict_contains (d : dict) (k : string) : bool :=
  match dict_get d k with
  | Some _ => true
  | None => false
  end.

(** [d[k]] on a dict *)
Definition dict_getitem (d : dict) (k : string) : outcome pyval :=
  match dict_get d k with
  | Some v => Ret v
  | None => Raise (KeyError (PStr k))
  end.

(** The value of an object used as a sequence index ([bool] is a subclass
    of [int]). *)
Definition py_index (k : pyval) : option Z :=
  match k with
  | PInt z => Some z
  | PBool b => Some (Z.b2z b)
  | _ => None
  end.

Definition seq_getitem {A} (l : list A) (i : Z) : outcome A :=
  let n := Z.of_nat (length l) in
  let j := if i <? 0 then i + n else i in
  if (j <? 0) || (n <=? j) then Raise IndexError
  else match nth_error l (Z.to_nat j) with
       | Some a => Ret a
       | None => Raise IndexError
       end.

Definition chars (s : string) : list pyval :=
  map (λ a, PStr (String a EmptyString)) (list_ascii_of_string s).

(** [c[k]] *)
Definition py_getitem (c k : pyval) : outcome pyval :=
  match c with
  | PDict d =>
      match k with
      | PStr s => dict_getitem d s
      | PList _ | PDict _ => Raise TypeError            (* unhashable key *)
      | _ => Raise (KeyError k)
      end
  | PList l =>
      match py_index k with
      | Some i => seq_getitem l i
      | None => Raise TypeError
      end
  | PStr s =>
      match py_index k with
      | Some i => seq_getitem (chars s) i
      | None => Raise TypeError
      end
  | _ => Raise TypeError                                (* not subscriptable *)
  end.

(** The elements produced by [for x in c]. *)
Definition py_iter (c : pyval) : outcome (list pyval) :=
  match c with
  | PDict d => Ret (map (λ kv, PStr (fst kv)) d)
  | PList l => Ret l
  | PStr s => Ret (chars s)
  | _ => Raise TypeError                                (* not iterable *)
  end.

(** [d.items()] *)
Definition py_items (c : pyval) : outcome dict :=
  match c with
  | PDict d => Ret d
  | _ => Raise AttributeError
  end.

(** ** Config validation *)

(** The loop of [valid_config]: [return False] at the first entry whose
    value is of a class other than [str] and [list]. *)
Fixpoint valid_config_loop (mapping : pyval) (entries : list pyval) : outcome bool :=
  match entries with
  | [] => Ret true
  | mapping_entry :: rest =>
      v ← py_getitem mapping mapping_entry;
      if negb (type_in v [TStr; TList]) then Ret false
      else valid_config_loop mapping rest
  end.

Definition valid_config (config : dict) : outcome bool :=
  if negb (dict_contains config "conditions") then Ret false
  else if negb (dict_contains config "mapping") then Ret false
  else
    mapping ← dict_getitem config "mapping";
    entries ← py_iter mapping;
    valid_config_loop mapping entries.

(** ** pandas *)

Module pd.

Inductive cell :=
  | CNone
  | CNaN
  | CBool (b : bool)
  | CInt (z : Z)
  | CStr (s : string).

Definition Series := list cell.

(** A frame: the column labels in order and the rows, each row holding
    one cell per column. *)
Record DataFrame := mkDataFrame {
  columns : list string;
  values : list (list cell)
}.

(** [pd.DataFrame()] *)
Definition empty_frame : DataFrame := mkDataFrame [] [].

(** [df.empty]: some axis has length 0. *)
Definition empty (df : DataFrame) : bool :=
  match columns df, values df with
  | [], _ | _, [] => true
  | _, _ => false
  end.

(** [label in df.columns] *)
Definition has_column (df : DataFrame) (label : string) : bool :=
  existsb (String.eqb label) (columns df).

(** Positions at which a label occurs among the columns. *)
Fixpoint positions (label : string) (cols : list string) (i : nat) : list nat :=
  match cols with
  | [] => []
  | c :: rest =>
      if String.eqb c label then i :: positions label rest (S i)
      else positions label rest (S i)
  end.

Definition at_col (i : nat) (row : list cell) : cell := nth i row CNaN.

(** [df[label]] for a label: the column as a Series. *)
Definition column (df : DataFrame) (label : string) : outcome Series :=
  match positions label (columns df) 0 with
  | [] => Raise (KeyError (PStr label))
  | [i] => Ret (map (at_col i) (values df))
  | _ => Unmodelled
  end.

(** [s.isna()] *)
Definition isna_cell (c : cell) : bool :=
  match c with
  | CNone | CNaN => true
  | _ => false
  end.

Definition isna (s : Series) : list bool := map isna_cell s.

(** [~mask] *)
Definition invert (mask : list bool) : list bool := map negb mask.

(** The integer as a float64: the nearest number with 53 significant
    bits, ties going to the even one.  Integers up to [2^53] in magnitude
    are kept. *)
Definition nearest_float64 (z : Z) : Z :=
  let a := Z.abs z in
  let shift := Z.log2 a + 1 - 53 in
  if shift <=? 0 then z
  else
    let q := Z.shiftr a shift in
    let r := a - Z.shiftl q shift in
    let half := Z.shiftl 1 (shift - 1) in
    let q' := if (half <? r) || ((r =? half) && Z.odd q) then q + 1 else q in
    Z.sgn z * Z.shiftl q' shift.

(** An integer cell against a float operand.  pandas compares an integer
    column (int64) with a float in float64: the integer is converted first.
    Up to [2^53] in magnitude the conversion is exact and this is Python's
    own [int == float] as well; beyond, a column of Python objects would
    compare without rounding, which is why the theorems that depend on the
    outcome of such a comparison assume [exact_in_float64]. *)
Definition float_eq_Z (f : pyfloat) (z : Z) : bool :=
  match f with
  | FFin m e =>
      let z' := nearest_float64 z in
      if 0 <=? e then z' =? m * 2 ^ e else z' * 2 ^ (- e) =? m
  | _ => false
  end.

(** The cell is not an integer that float64 would round. *)
Definition exact_in_float64 (c : cell) : bool :=
  match c with
  | CInt z => Z.abs z <=? 2 ^ 53
  | _ => true
  end.

(** Python's [==] between a cell and a scalar, as pandas applies it
    element by element; a missing cell and a [None] operand compare
    unequal to everything. *)
Definition cell_eq (c : cell) (v : pyval) : bool :=
  match c, v with
  | CStr s, PStr s' => String.eqb s s'
  | CInt z, PInt z' => z =? z'
  | CInt z, PBool b => z =? Z.b2z b
  | CInt z, PFloat f => float_eq_Z f z
  | CBool b, PBool b' => Bool.eqb b b'
  | CBool b, PInt z => Z.b2z b =? z
  | CBool b, PFloat f => float_eq_Z f (Z.b2z b)
  | _, _ => false
  end.

Definition is_scalar (v : pyval) : bool :=
  match v with
  | PList _ | PDict _ => false
  | _ => true
  end.

(** [s == v] *)
Definition Series_eq (s : Series) (v : pyval) : outcome (list bool) :=
  if is_scalar v then Ret (map (λ c, cell_eq c v) s) else Unmodelled.

(** [df[mask]] for a boolean mask: the rows where the mask holds. *)
Fixpoint select {A} (mask : list bool) (rows : list A) : list A :=
  match mask, rows with
  | b :: mask', r :: rows' =>
      if b then r :: select mask' rows' else select mask' rows'
  | _, _ => []
  end.

Definition where_mask (df : DataFrame) (mask : list bool) : DataFrame :=
  mkDataFrame (columns df) (select mask (values df)).

Definition index_of (label : string) (cols : list string) : option nat :=
  head (positions label cols 0).

Fixpoint nodupb (cols : list string) : bool :=
  match cols with
  | [] => true
  | c :: rest => negb (existsb (String.eqb c) rest) && nodupb rest
  end.

Fixpoint labels_eqb (a b : list string) : bool :=
  match a, b with
  | [], [] => true
  | x :: a', y :: b' => String.eqb x y && labels_eqb a' b'
  | _, _ => false
  end.

(** A row laid out for another list of columns; cells of columns the row
    does not have are NaN. *)
Definition realign (from to : list string) (row : list cell) : list cell :=
  map (λ c, match index_of c from with
            | Some i => at_col i row
            | None => CNaN
            end) to.

(** [a.append(b, ignore_index=True)]: the rows of [a] followed by the
    rows of [b], over the columns of [a] followed by the new columns of
    [b]. *)
Definition append_frames (a b : DataFrame) : outcome DataFrame :=
  if labels_eqb (columns a) (columns b) then
    Ret (mkDataFrame (columns a) (values a ++ values b))
  else if nodupb (columns a) && nodupb (columns b) then
    let cols := columns a ++
                List.filter (λ c, negb (existsb (String.eqb c) (columns a))) (columns b) in
    Ret (mkDataFrame cols (map (realign (columns a) cols) (values a) ++
                           map (realign (columns b) cols) (values b)))
  else Unmodelled.

(** The cell made from a Python literal. *)
Definition to_cell (v : pyval) : option cell :=
  match v with
  | PNone => Some CNone
  | PBool b => Some (CBool b)
  | PInt z => Some (CInt z)
  | PStr s => Some (CStr s)
  | PFloat FNan => Some CNaN
  | _ => None
  end.

Fixpoint zip_with_default {A B} (f : A → B → A) (rows : list A) (vals : list B) : list A :=
  match rows, vals with
  | r :: rows', v :: vals' => f r v :: zip_with_default f rows' vals'
  | _, _ => rows
  end.

(** [df[label] = s] for a Series [s] of the frame's own length: an
    existing column is overwritten in place, a new one is added last. *)
Definition set_column (df : DataFrame) (label : string) (s : Series) : outcome DataFrame :=
  match positions label (columns df) 0 with
  | [] => Ret (mkDataFrame (columns df ++ [label])
                           (zip_with_default (λ row c, row ++ [c]) (values df) s))
  | [i] => Ret (mkDataFrame (columns df)
                            (zip_with_default (λ row c, <[i := c]> row) (values df) s))
  | _ => Unmodelled
  end.

(** [df.rename(columns=m)]: every label that is a key of [m] is replaced
    by its value, all at once. *)
Fixpoint rename_labels (m : dict) (cols : list string) : outcome (list string) :=
  match cols with
  | [] => Ret []
  | c :: rest =>
      c' ← match dict_get m c with
           | None => Ret c
           | Some (PStr s) => Ret s
           | Some _ => Unmodelled
           end;
      rest' ← rename_labels m rest;
      Ret (c' :: rest')
  end.

Fixpoint remove_at {A} (i : nat) (l : list A) : list A :=
  match i, l with
  | _, [] => []
  | O, _ :: l' => l'
  | S i', x :: l' => x :: remove_at i' l'
  end.

(** [del df[label]] *)
Definition drop_column (df : DataFrame) (label : string) : outcome DataFrame :=
  match positions label (columns df) 0 with
  | [] => Raise (KeyError (PStr label))
  | [i] => Ret (mkDataFrame (remove_at i (columns df)) (map (remove_at i) (values df)))
  | _ => Unmodelled
  end.

(** [str(c)] *)
Definition str (c : cell) : string :=
  match c with
  | CNone => "None"
  | CNaN => "nan"
  | CBool true => "True"
  | CBool false => "False"
  | CInt z => pretty z
  | CStr s => s
  end.

(** [df.applymap(str)] *)
Definition applymap_str (df : DataFrame) : DataFrame :=
  mkDataFrame (columns df) (map (map (λ c, CStr (str c))) (values df)).

Definition cell_eqb (a b : cell) : bool :=
  match a, b with
  | CNone, CNone | CNaN, CNaN => true
  | CBool x, CBool y => Bool.eqb x y
  | CInt x, CInt y => x =? y
  | CStr x, CStr y => String.eqb x y
  | _, _ => false
  end.

Fixpoint row_eqb (a b : list cell) : bool :=
  match a, b with
  | [], [] => true
  | x :: a', y :: b' => cell_eqb x y && row_eqb a' b'
  | _, _ => false
  end.

Fixpoint keep_first (seen rows : list (list cell)) : list (list cell) :=
  match rows with
  | [] => []
  | r :: rest =>
      if existsb (row_eqb r) seen then keep_first seen rest
      else r :: keep_first (r :: seen) rest
  end.

(** [df.drop_duplicates()]: an empty frame ([df.empty]: no rows, or rows
    but no columns) comes back as it is; otherwise, of the rows equal in
    every column the first is kept (used here on frames of strings). *)
Definition drop_duplicates (df : DataFrame) : DataFrame :=
  if empty df then df
  else mkDataFrame (columns df) (keep_first [] (values df)).

End pd.

(** ** The interpreter state

    Frames are objects: a variable holds a reference into the heap, and
    [df[label] = ...], [rename(..., inplace=True)] and [del df[label]]
    update the object every alias sees.  An exception leaves the heap as it
    is at the point where it is raised. *)

Abbreviation ref := nat.
Abbreviation heap := (list pd.DataFrame).
Definition M (A : Type) : Type := heap → outcome A * heap.

Definition M_ret {A} (a : A) : M A := λ h, (Ret a, h).

Definition M_bind {A B} (f : A → M B) (m : M A) : M B :=
  λ h, match m h with
       | (Ret a, h') => f a h'
       | (Raise e, h') => (Raise e, h')
       | (Unmodelled, h') => (Unmodelled, h')
       end.

#[global] Instance M_mret : MRet M := @M_ret.
#[global] Instance M_mbind : MBind M := @M_bind.

Definition lift {A} (o : outcome A) : M A := λ h, (o, h).
Definition raise {A} (e : exn) : M A := λ h, (Raise e, h).

Definition read (r : ref) : M pd.DataFrame :=
  λ h, match h !! r with
       | Some t => (Ret t, h)
       | None => (Unmodelled, h)
       end.

Definition alloc (t : pd.DataFrame) : M ref :=
  λ h, (Ret (length h), h ++ [t]).

Definition write (r : ref) (t : pd.DataFrame) : M unit :=
  λ h, (Ret tt, <[r := t]> h).

(** [for x in xs: body(x)] *)
Fixpoint for_each {A} (xs : list A) (body : A → M unit) : M unit :=
  match xs with
  | [] => mret tt
  | x :: rest => body x;; for_each rest body
  end.

(** Methods of a frame object. *)
Module DF.

(** [pd.DataFrame()] *)
Definition new : M ref := alloc pd.empty_frame.

(** [df.copy()] *)
Definition copy (df : ref) : M ref := t ← read df; alloc t.

(** [label in df.columns] *)
Definition has_column (df : ref) (label : pyval) : M bool :=
  t ← read df;
  match label with
  | PStr s => mret (pd.has_column t s)
  | PList _ | PDict _ => raise TypeError               (* unhashable *)
  | _ => mret false
  end.

(** [df[label]] *)
Definition getitem (df : ref) (label : pyval) : M pd.Series :=
  t ← read df;
  match label with
  | PStr s => lift (pd.column t s)
  | PList _ | PDict _ => lift Unmodelled
  | _ => raise (KeyError label)
  end.

(** [df[mask]] *)
Definition getitem_mask (df : ref) (mask : list bool) : M ref :=
  t ← read df; alloc (pd.where_mask t mask).

(** [df.append(other, ignore_index=True)] *)
Definition append (df other : ref) : M ref :=
  a ← read df; b ← read other;
  t ← lift (pd.append_frames a b);
  alloc t.

(** [df[label] = s] *)
Definition setitem (df : ref) (label : pyval) (s : pd.Series) : M unit :=
  t ← read df;
  match label with
  | PStr l => t' ← lift (pd.set_column t l s); write df t'
  | _ => lift Unmodelled
  end.

(** [df[label] = v] for a literal [v], which fills the column. *)
Definition setitem_scalar (df : ref) (label : pyval) (v : pyval) : M unit :=
  t ← read df;
  match pd.to_cell v with
  | Some c => setitem df label (map (λ _, c) (pd.values t))
  | None => lift Unmodelled
  end.

(** [df.rename(columns=m, inplace=True)] *)
Definition rename_inplace (df : ref) (m : dict) : M unit :=
  t ← read df;
  cols ← lift (pd.rename_labels m (pd.columns t));
  write df (pd.mkDataFrame cols (pd.values t)).

(** [del df[label]] *)
Definition delitem (df : ref) (label : string) : M unit :=
  t ← read df;
  t' ← lift (pd.drop_column t label);
  write df t'.

(** [df.empty] *)
Definition empty (df : ref) : M bool := t ← read df; mret (pd.empty t).

(** [df.applymap(str)] *)
Definition applymap_str (df : ref) : M ref :=
  t ← read df; alloc (pd.applymap_str t).

(** [df.drop_duplicates()] *)
Definition drop_duplicates (df : ref) : M ref :=
  t ← read df; alloc (pd.drop_duplicates t).

End DF.

(** ** The module [remap_columns] *)

(** The inner loop of [__df_filter] over the entries of a list value. *)
Fixpoint __df_filter_entries (current_cond_result : ref) (condition : pyval)
    (entries : list pyval) (tmp : ref) : M ref :=
  match entries with
  | [] => mret tmp
  | list_entry :: rest =>
      col ← DF.getitem current_cond_result condition;
      value_filter ← lift (pd.Series_eq col list_entry);
      matched ← DF.getitem_mask current_cond_result value_filter;
      tmp' ← DF.append tmp matched;
      __df_filter_entries current_cond_result condition rest tmp'
  end.

(** The loop of [__df_filter] over the keys of [conditions]. *)
Fixpoint __df_filter_loop (conditions : pyval) (keys : list pyval)
    (current_cond_result : ref) : M ref :=
  match keys with
  | [] => mret current_cond_result
  | condition :: rest =>
      present ← DF.has_column current_cond_result condition;
      if negb present then DF.new
      else
        value ← lift (py_getitem conditions condition);
        if type_in value [TStr; TInt; TNone] then
          if py_eq_str value "not null" then
            col ← DF.getitem current_cond_result condition;
            let null_filter := pd.isna col in
            current' ← DF.getitem_mask current_cond_result (pd.invert null_filter);
            __df_filter_loop conditions rest current'
          else if py_is_None value then
            col ← DF.getitem current_cond_result condition;
            let na_value_filter := pd.isna col in
            current' ← DF.getitem_mask current_cond_result na_value_filter;
            __df_filter_loop conditions rest current'
          else
            col ← DF.getitem current_cond_result condition;
            value_filter ← lift (pd.Series_eq col value);
            current' ← DF.getitem_mask current_cond_result value_filter;
            __df_filter_loop conditions rest current'
        else if pytype_eqb (py_type value) TList then
          tmp ← DF.new;
          entries ← lift (py_iter value);
          current' ← __df_filter_entries current_cond_result condition entries tmp;
          __df_filter_loop conditions rest current'
        else raise (Exception "Unexpected condition value format")
  end.

Definition __df_filter (result : ref) (conditions : pyval) : M ref :=
  current_cond_result ← DF.copy result;
  keys ← lift (py_iter conditions);
  __df_filter_loop conditions keys current_cond_result.

(** The loop of [df_filter] over a list of conditions. *)
Fixpoint df_filter_loop (result : ref) (conditions : list pyval)
    (current_cond_result : ref) : M ref :=
  match conditions with
  | [] => mret current_cond_result
  | condition :: rest =>
      matched ← __df_filter result condition;
      current' ← DF.append current_cond_result matched;
      df_filter_loop result rest current'
  end.

Definition df_filter (df : ref) (conditions : pyval) : M ref :=
  result ← DF.copy df;
  current_cond_result ← DF.new;
  if pytype_eqb (py_type conditions) TStr && py_eq_str conditions "*" then mret result
  else
    current_cond_result ←
      (if pytype_eqb (py_type conditions) TDict then __df_filter result conditions
       else mret current_cond_result);
    current_cond_result ←
      (if pytype_eqb (py_type conditions) TList then
         fresh ← DF.new;
         entries ← lift (py_iter conditions);
         df_filter_loop result entries fresh
       else mret current_cond_result);
    mret current_cond_result.

Definition is_list (v : pyval) : bool := pytype_eqb (py_type v) TList.

Definition map_fields (df : ref) (mapping : pyval) (save_original : bool) : M ref :=
  items ← lift (py_items mapping);
  let simple_mapping := List.filter (λ kv, negb (is_list (snd kv))) items in
  (if save_original then
     for_each (map fst simple_mapping) (λ key,
       value ← lift (dict_getitem simple_mapping key);
       col ← DF.getitem df (PStr key);
       DF.setitem df value col)
   else DF.rename_inplace df simple_mapping);;
  let multivalue_mapping := List.filter (λ kv, is_list (snd kv)) items in
  for_each (map fst multivalue_mapping) (λ key,
    present ← DF.has_column df (PStr key);
    if negb present then mret tt
    else
      values ← lift (dict_getitem multivalue_mapping key);
      entries ← lift (py_iter values);
      for_each entries (λ value,
        col ← DF.getitem df (PStr key);
        DF.setitem df value col);;
      if negb save_original then DF.delitem df key else mret tt);;
  mret df.

Definition prepare_object (df : ref) (config : dict) : M ref :=
  valid ← lift (valid_config config);
  if negb valid then DF.new
  else
    conditions ← lift (dict_getitem config "conditions");
    filtered ← df_filter df conditions;
    no_rows ← DF.empty filtered;
    if (no_rows : bool) then mret filtered
    else
      extensions ← lift (dict_getitem config "extensions");
      keys ← lift (py_iter extensions);
      for_each keys (λ key,
        v ← lift (py_getitem extensions key);
        DF.setitem_scalar filtered key v);;
      mapping ← lift (dict_getitem config "mapping");
      mapped ← map_fields filtered mapping false;
      stringified ← DF.applymap_str mapped;
      DF.drop_duplicates stringified.

(** ** The filter on frames as values

    What [__df_filter] and [df_filter] compute, as functions of the frame
    that the argument refers to.  [filter_refines] and [df_filter_refines]
    below show that the embedded code computes exactly this, in a fresh
    object, whatever else the heap holds. *)

Module Sem.

Definition has_column (t : pd.DataFrame) (label : pyval) : outcome bool :=
  match label with
  | PStr s => Ret (pd.has_column t s)
  | PList _ | PDict _ => Raise TypeError
  | _ => Ret false
  end.

Definition column (t : pd.DataFrame) (label : pyval) : outcome pd.Series :=
  match label with
  | PStr s => pd.column t s
  | PList _ | PDict _ => Unmodelled
  | _ => Raise (KeyError label)
  end.

Fixpoint entries_loop (cur : pd.DataFrame) (condition : pyval)
    (entries : list pyval) (tmp : pd.DataFrame) : outcome pd.DataFrame :=
  match entries with
  | [] => Ret tmp
  | list_entry :: rest =>
      col ← column cur condition;
      value_filter ← pd.Series_eq col list_entry;
      tmp' ← pd.append_frames tmp (pd.where_mask cur value_filter);
      entries_loop cur condition rest tmp'
  end.

(** One round of the loop of [__df_filter], for a column that is present. *)
Definition narrow (cur : pd.DataFrame) (condition value : pyval) : outcome pd.DataFrame :=
  if type_in value [TStr; TInt; TNone] then
    if py_eq_str value "not null" then
      col ← column cur condition;
      Ret (pd.where_mask cur (pd.invert (pd.isna col)))
    else if py_is_None value then
      col ← column cur condition;
      Ret (pd.where_mask cur (pd.isna col))
    else
      col ← column cur condition;
      value_filter ← pd.Series_eq col value;
      Ret (pd.where_mask cur value_filter)
  else if pytype_eqb (py_type value) TList then
    entries ← py_iter value;
    entries_loop cur condition entries pd.empty_frame
  else Raise (Exception "Unexpected condition value format").

Fixpoint filter_loop (conditions : pyval) (keys : list pyval)
    (cur : pd.DataFrame) : outcome pd.DataFrame :=
  match keys with
  | [] => Ret cur
  | condition :: rest =>
      present ← has_column cur condition;
      if negb present then Ret pd.empty_frame
      else
        value ← py_getitem conditions condition;
        cur' ← narrow cur condition value;
        filter_loop conditions rest cur'
  end.

Definition filter (t : pd.DataFrame) (conditions : pyval) : outcome pd.DataFrame :=
  keys ← py_iter conditions;
  filter_loop conditions keys t.

Fixpoint union_loop (t : pd.DataFrame) (conditions : list pyval)
    (acc : pd.DataFrame) : outcome pd.DataFrame :=
  match conditions with
  | [] => Ret acc
  | condition :: rest =>
      matched ← filter t condition;
      acc' ← pd.append_frames acc matched;
      union_loop t rest acc'
  end.

Definition df_filter (t : pd.DataFrame) (conditions : pyval) : outcome pd.DataFrame :=
  if pytype_eqb (py_type conditions) TStr && py_eq_str conditions "*" then Ret t
  else if pytype_eqb (py_type conditions) TDict then filter t conditions
  else if pytype_eqb (py_type conditions) TList then
    entries ← py_iter conditions;
    union_loop t entries pd.empty_frame
  else Ret pd.empty_frame.

End Sem.

(** [evals n m h o]: run from the heap [h], the computation [m] only
    allocates, and its outcome is [o]; when [o] is a frame, [m] returns a
    reference, not below [n], to an object holding that frame. *)
Definition evals (n : nat) (m : M ref) (h : heap) (o : outcome pd.DataFrame) : Prop :=
  ∃ h', h `prefix_of` h' ∧
    match o with
    | Ret t => ∃ r, m h = (Ret r, h') ∧ h' !! r = Some t ∧ (n ≤ r)%nat
    | Raise e => m h = (Raise e, h')
    | Unmodelled => m h = (Unmodelled, h')
    end.

(** [returns m h t]: run from [h], [m] returns an object holding [t]. *)
Definition returns (m : M ref) (h : heap) (t : pd.DataFrame) : Prop :=
  ∃ r h', m h = (Ret r, h') ∧ h' !! r = Some t.

(** [raises m h e]: run from [h], [m] raises [e]. *)
Definition raises {A} (m : M A) (h : heap) (e : exn) : Prop :=
  ∃ h', m h = (Raise e, h').

(** A frame as the spec describes tables: distinct column labels, and one
    cell per column in every row. *)
Definition well_formed (t : pd.DataFrame) : Prop :=
  NoDup (pd.columns t) ∧
  Forall (λ row, length row = length (pd.columns t)) (pd.values t).

(** The cell of a row under a label of the frame. *)
Definition cell_of (t : pd.DataFrame) (label : string) (row : list pd.cell) : pd.cell :=
  match pd.index_of label (pd.columns t) with
  | Some i => pd.at_col i row
  | None => pd.CNaN
  end.

(** [narrower f cur]: [f] is a well-formed frame made of rows of [cur],
    over the columns of [cur] unless it is [pd.DataFrame()]. *)
Definition narrower (f cur : pd.DataFrame) : Prop :=
  well_formed f ∧
  (pd.columns f = pd.columns cur ∨ f = pd.empty_frame) ∧
  incl (pd.values f) (pd.values cur).

(** The rows of [t] whose cell under [label] equals [v]. *)
Definition rows_equal (t : pd.DataFrame) (label : string) (v : pyval) : list (list pd.cell) :=
  List.filter (λ row, pd.cell_eq (cell_of t label row) v) (pd.values t).

(** Values the loop of [__df_filter] handles without raising: strings,
    integers, [None], and lists of scalars. *)
Definition supported (v : pyval) : bool :=
  match v with
  | PStr _ | PInt _ | PNone => true
  | PList l => forallb pd.is_scalar l
  | _ => false
  end.

(** Supported values that leave the columns of the working frame in place
    (an empty list replaces it by [pd.DataFrame()]). *)
Definition keeps_columns (v : pyval) : bool :=
  match v with
  | PList [] => false
  | _ => supported v
  end.

(** [keeps n m]: [m] leaves the objects below [n] as they are. *)
Definition keeps {A} (n : nat) (m : M A) : Prop :=
  ∀ h o h', (n ≤ length h)%nat → m h = (o, h') →
    (n ≤ length h')%nat ∧ ∀ q, (q < n)%nat → h' !! q = h !! q.

(** *** Readings of the specification that the code does not satisfy *)

Definition row_filter_deduplicates : Prop :=
  ∀ (h : heap) (df : ref) (t : pd.DataFrame) (conditions : list pyval) (out : pd.DataFrame),
    h !! df = Some t → well_formed t → NoDup (pd.values t) →
    returns (df_filter df (PList conditions)) h out →
    NoDup (pd.values out).

Definition str_or_list_of_str (v : pyval) : bool :=
  match v with
  | PStr _ => true
  | PList l => forallb (λ e, pytype_eqb (py_type e) TStr) l
  | _ => false
  end.

Definition validator_inspects_list_elements : Prop :=
  ∀ config : dict,
    valid_config config = Ret false ↔
    dict_get config "conditions" = None ∨
    dict_get config "mapping" = None ∨
    ∃ d k v, dict_get config "mapping" = Some (PDict d) ∧
             dict_get d k = Some v ∧ str_or_list_of_str v = false.

Definition list_condition_deduplicates : Prop :=
  ∀ (h : heap) (df : ref) (t : pd.DataFrame) (c : string) (vs : list pyval)
    (out : pd.DataFrame),
    h !! df = Some t → well_formed t → NoDup (pd.values t) →
    In c (pd.columns t) → Forall (λ v, pd.is_scalar v = true) vs →
    returns (__df_filter df (PDict [(c, PList vs)])) h out →
    NoDup (pd.values out).

(** A scalar, null, or a list of scalars. *)
Definition supported_shape (v : pyval) : bool :=
  match v with
  | PList l => forallb pd.is_scalar l
  | PDict _ => false
  | _ => true
  end.

Definition unsupported_shape_always_raises : Prop :=
  ∀ (h : heap) (df : ref) (t : pd.DataFrame) (d : dict) (k : string) (v : pyval),
    h !! df = Some t → well_formed t →
    dict_get d k = Some v → supported_shape v = false →
    raises (__df_filter df (PDict d)) h (Exception "Unexpected condition value format").

Definition scalar_condition_always_succeeds : Prop :=
  ∀ (h : heap) (df : ref) (t : pd.DataFrame) (c : string) (v : pyval),
    h !! df = Some t → well_formed t → In c (pd.columns t) →
    pd.is_scalar v = true → v ≠ PNone → v ≠ PStr "not null" →
    ∃ out, returns (__df_filter df (PDict [(c, v)])) h out ∧
           pd.values out = rows_equal t c v.

Definition map_fields_leaves_input : Prop :=
  ∀ (h : heap) (df : ref) (t : pd.DataFrame) (mapping : pyval) (save_original : bool)
    (o : outcome ref) (h' : heap),
    h !! df = Some t → map_fields df mapping save_original h = (o, h') →
    h' !! df = Some t.

Definition absent_column_always_empty : Prop :=
  ∀ (h : heap) (df : ref) (t : pd.DataFrame) (d : dict) (k : string),
    h !! df = Some t → well_formed t →
    In k (map fst d) → ¬ In k (pd.columns t) →
    returns (__df_filter df (PDict d)) h pd.empty_frame.

(** *** Sample tables *)

Definition one_row : pd.DataFrame :=
  pd.mkDataFrame ["a"; "b"] [[pd.CInt 1; pd.CInt 2]].

Definition three_rows : pd.DataFrame :=
  pd.mkDataFrame ["a"; "b"]
    [[pd.CInt 1; pd.CStr "x"]; [pd.CInt 2; pd.CNone]; [pd.CNone; pd.CStr "y"]].

Definition a_column : pd.DataFrame :=
  pd.mkDataFrame ["a"] [[pd.CInt 1]; [pd.CInt 2]; [pd.CNone]].

Definition status_table : pd.DataFrame :=
  pd.mkDataFrame ["id"; "status"]
    [[pd.CInt 1; pd.CStr "active"]; [pd.CInt 2; pd.CStr "inactive"]].

Definition status_config : dict :=
  [("conditions", PDict [("status", PStr "active")]);
   ("extensions", PDict [("source", PStr "x")]);
   ("mapping", PDict [("id", PStr "ID"); ("status", PStr "Status")])].

(** The frame a run returned, if it returned one. *)
Definition result_of (run : outcome ref * heap) : option pd.DataFrame :=
  match run with
  | (Ret r, h) => h !! r
  | _ => None
  end.

(** [preserved h h']: every object of [h] is in [h'], holding the same
    frame. *)
Definition preserved (h h' : heap) : Prop :=
  ∀ (q : ref) (t : pd.DataFrame), h !! q = Some t → h' !! q = Some t.

Definition invalid_mapping_config : dict :=
  [("conditions", PStr "*"); ("mapping", PDict [("a", PInt 1)])].

Definition config_without_extensions : dict :=
  [("conditions", PDict [("a", PInt 1)]); ("mapping", PDict [("a", PStr "A")])].

(** *** Vocabulary of the further properties *)

(** The test one round of the loop of [__df_filter] applies to a cell, for
    a spec of class [str], [int] or [NoneType]. *)
Definition scalar_test (v : pyval) (c : pd.cell) : bool :=
  if py_eq_str v "not null" then negb (pd.isna_cell c)
  else if py_is_None v then pd.isna_cell c
  else pd.cell_eq c v.

(** The row passes the test of every item of the Condition. *)
Definition meets (t : pd.DataFrame) (d : dict) (row : list pd.cell) : bool :=
  forallb (λ kv, scalar_test (snd kv) (cell_of t (fst kv) row)) d.

(** The label [df.rename(columns=m)] gives to the column [c]. *)
Definition renamed (m : dict) (c : string) : string :=
  match dict_get m c with
  | Some (PStr s) => s
  | _ => c
  end.

Definition is_str_cell (c : pd.cell) : Prop := ∃ s, c = pd.CStr s.

(** The frame with the cells of column [i] copied into new columns
    [dests], placed last. *)
Definition fan_out (t : pd.DataFrame) (i : nat) (dests : list string) : pd.DataFrame :=
  pd.mkDataFrame (pd.columns t ++ dests)
    (map (λ row, row ++ repeat (pd.at_col i row) (length dests)) (pd.values t)).

(** The frame without its column [i]. *)
Definition without_column (t : pd.DataFrame) (i : nat) : pd.DataFrame :=
  pd.mkDataFrame (pd.remove_at i (pd.columns t)) (map (pd.remove_at i) (pd.values t)).

(** The frame with new last columns, one per item of [cells], each filled
    with the cell of the item. *)
Definition extended (t : pd.DataFrame) (cells : list (string * pd.cell)) : pd.DataFrame :=
  pd.mkDataFrame (pd.columns t ++ map fst cells)
    (map (λ row, row ++ map snd cells) (pd.values t)).

(** The frame with every column relabelled by [renamed m]. *)
Definition relabelled (m : dict) (t : pd.DataFrame) : pd.DataFrame :=
  pd.mkDataFrame (map (renamed m) (pd.columns t)) (pd.values t).

(** [cells] are the items of the dict of literals [ext], as cells. *)
Definition cells_of (ext : dict) (cells : list (string * pd.cell)) : Prop :=
  Forall2 (λ kv kc, fst kv = fst kc ∧ pd.to_cell (snd kv) = Some (snd kc)) ext cells.

(** ** The worked examples of the specification *)

Example not_null_example :
  result_of (df_filter 0%nat (PDict [("a", PStr "not null")]) [a_column]) =
  Some (pd.mkDataFrame ["a"] [[pd.CInt 1]; [pd.CInt 2]]).
Proof. reflexivity. Qed.

Example is_null_example :
  result_of (df_filter 0%nat (PDict [("a", PNone)]) [a_column]) =
  Some (pd.mkDataFrame ["a"] [[pd.CNone]]).
Proof. reflexivity. Qed.

Example membership_example :
  result_of (df_filter 0%nat (PDict [("a", PList [PInt 1; PInt 2])]) [a_column]) =
  Some (pd.mkDataFrame ["a"] [[pd.CInt 1]; [pd.CInt 2]]).
Proof. reflexivity. Qed.

Example rename_example :
  map_fields 0%nat (PDict [("a", PStr "b")]) false [pd.mkDataFrame ["a"] [[pd.CInt 1]]] =
  (Ret 0%nat, [pd.mkDataFrame ["b"] [[pd.CInt 1]]]).
Proof. reflexivity. Qed.

Example rename_keeping_original_example :
  map_fields 0%nat (PDict [("a", PStr "b")]) true [pd.mkDataFrame ["a"] [[pd.CInt 1]]] =
  (Ret 0%nat, [pd.mkDataFrame ["a"; "b"] [[pd.CInt 1; pd.CInt 1]]]).
Proof. reflexivity. Qed.

Example fan_out_example :
  map_fields 0%nat (PDict [("a", PList [PStr "b"; PStr "c"])]) false
             [pd.mkDataFrame ["a"] [[pd.CInt 5]]] =
  (Ret 0%nat, [pd.mkDataFrame ["b"; "c"] [[pd.CInt 5; pd.CInt 5]]]).
Proof. reflexivity. Qed.

Example end_to_end_example :
  result_of (prepare_object 0%nat status_config [status_table]) =
  Some (pd.mkDataFrame ["ID"; "Status"; "source"]
          [[pd.CStr "1"; pd.CStr "active"; pd.CStr "x"]]).
Proof. vm_compute. reflexivity. Qed.

(** ** Running the interpreter *)

Lemma bind_run {A B} (m : M A) (k : A → M B) (h : heap) :
  (m ≫= k) h =
  match m h with
  | (Ret a, h') => k a h'
  | (Raise e, h') => (Raise e, h')
  | (Unmodelled, h') => (Unmodelled, h')
  end.
Proof. reflexivity. Qed.

Lemma read_run (r : ref) (h : heap) (t : pd.DataFrame) :
  h !! r = Some t → read r h = (Ret t, h).
Proof. intros H. unfold read. by rewrite H. Qed.

Lemma lookup_fresh (h : heap) (t : pd.DataFrame) :
  (h ++ [t]) !! length h = Some t.
Proof. by rewrite lookup_app_r, Nat.sub_diag. Qed.

Lemma evals_ret (n : nat) (r : ref) (h : heap) (t : pd.DataFrame) :
  h !! r = Some t → (n ≤ r)%nat → evals n (mret r) h (Ret t).
Proof. intros Hr Hn. exists h. split; [done|]. by exists r. Qed.

Lemma evals_alloc (n : nat) (h : heap) (t : pd.DataFrame) :
  (n ≤ length h)%nat → evals n (alloc t) h (Ret t).
Proof.
  intros Hn. exists (h ++ [t]). split; [by apply prefix_app_r|].
  exists (length h). split; [done|]. split; [apply lookup_fresh|done].
Qed.

(** Sequencing after a computation that yields a frame. *)
Lemma evals_bind (n n' : nat) (m : M ref) (k : ref → M ref) (h : heap)
    (o : outcome pd.DataFrame) (K : pd.DataFrame → outcome pd.DataFrame) :
  evals n m h o →
  (∀ r t h', h `prefix_of` h' → h' !! r = Some t → (n ≤ r)%nat →
             evals n' (k r) h' (K t)) →
  evals n' (m ≫= k) h (o ≫= K).
Proof.
  intros (h1 & Hp & Hm) Hk. destruct o as [t|e|].
  - destruct Hm as (r & Hm & Hr & Hn).
    destruct (Hk r t h1 Hp Hr Hn) as (h2 & Hp2 & H2).
    exists h2. split; [by etrans|]. rewrite bind_run, Hm. exact H2.
  - exists h1. split; [done|]. by rewrite bind_run, Hm.
  - exists h1. split; [done|]. by rewrite bind_run, Hm.
Qed.

Lemma evals_bind_ret (n n' : nat) (m : M ref) (k : ref → M ref) (h : heap)
    (t : pd.DataFrame) (o : outcome pd.DataFrame) :
  evals n m h (Ret t) →
  (∀ r h', h `prefix_of` h' → h' !! r = Some t → (n ≤ r)%nat →
           evals n' (k r) h' o) →
  evals n' (m ≫= k) h o.
Proof.
  intros (h1 & Hp & r & Hm & Hr & Hn) Hk.
  destruct (Hk r h1 Hp Hr Hn) as (h2 & Hp2 & H2).
  exists h2. split; [by etrans|]. rewrite bind_run, Hm. exact H2.
Qed.

(** Sequencing after a computation that leaves the heap alone. *)
Lemma evals_bind_pure {A} (n : nat) (m : M A) (k : A → M ref) (h : heap)
    (o : outcome A) (K : A → outcome pd.DataFrame) :
  m h = (o, h) →
  (∀ a, o = Ret a → evals n (k a) h (K a)) →
  evals n (m ≫= k) h (o ≫= K).
Proof.
  intros Hm Hk. destruct o as [a|e|].
  - destruct (Hk a eq_refl) as (h2 & Hp2 & H2).
    exists h2. split; [done|]. rewrite bind_run, Hm. exact H2.
  - exists h. split; [done|]. by rewrite bind_run, Hm.
  - exists h. split; [done|]. by rewrite bind_run, Hm.
Qed.

Lemma evals_raise (n : nat) (h : heap) (e : exn) : evals n (raise e) h (Raise e).
Proof. by exists h. Qed.

Lemma has_column_run (cur : ref) (label : pyval) (h : heap) (t : pd.DataFrame) :
  h !! cur = Some t → DF.has_column cur label h = (Sem.has_column t label, h).
Proof.
  intros H. unfold DF.has_column. rewrite bind_run, (read_run _ _ _ H).
  by destruct label.
Qed.

Lemma getitem_run (cur : ref) (label : pyval) (h : heap) (t : pd.DataFrame) :
  h !! cur = Some t → DF.getitem cur label h = (Sem.column t label, h).
Proof.
  intros H. unfold DF.getitem. rewrite bind_run, (read_run _ _ _ H).
  by destruct label.
Qed.

Lemma evals_new (n : nat) (h : heap) :
  (n ≤ length h)%nat → evals n DF.new h (Ret pd.empty_frame).
Proof. apply evals_alloc. Qed.

Lemma evals_copy (n : nat) (df : ref) (h : heap) (t : pd.DataFrame) :
  h !! df = Some t → (n ≤ length h)%nat → evals n (DF.copy df) h (Ret t).
Proof.
  intros H Hn. destruct (evals_alloc n h t Hn) as (h' & Hp & Ha).
  exists h'. split; [done|]. unfold DF.copy. by rewrite bind_run, (read_run _ _ _ H).
Qed.

Lemma evals_getitem_mask (n : nat) (df : ref) (mask : list bool) (h : heap) (t : pd.DataFrame) :
  h !! df = Some t → (n ≤ length h)%nat →
  evals n (DF.getitem_mask df mask) h (Ret (pd.where_mask t mask)).
Proof.
  intros H Hn. destruct (evals_alloc n h (pd.where_mask t mask) Hn) as (h' & Hp & Ha).
  exists h'. split; [done|]. unfold DF.getitem_mask. by rewrite bind_run, (read_run _ _ _ H).
Qed.

Lemma evals_append (n : nat) (a b : ref) (h : heap) (ta tb : pd.DataFrame) :
  h !! a = Some ta → h !! b = Some tb → (n ≤ length h)%nat →
  evals n (DF.append a b) h (pd.append_frames ta tb).
Proof.
  intros Ha Hb Hn. unfold DF.append, evals.
  rewrite !bind_run, (read_run _ _ _ Ha).
  rewrite !bind_run, (read_run _ _ _ Hb).
  rewrite bind_run. unfold lift.
  destruct (pd.append_frames ta tb) as [t|e|]; [|by exists h..].
  exists (h ++ [t]). split; [by apply prefix_app_r|].
  exists (length h). split; [done|]. split; [apply lookup_fresh|done].
Qed.

Lemma lift_run {A} (o : outcome A) (h : heap) : lift o h = (o, h).
Proof. reflexivity. Qed.

Lemma prefix_le (h h' : heap) (n : nat) :
  h `prefix_of` h' → (n ≤ length h)%nat → (n ≤ length h')%nat.
Proof. intros Hp Hn. apply prefix_length in Hp. lia. Qed.

(** A heap-neutral step whose outcome is known. *)
Lemma evals_after {A} (n : nat) (m : M A) (k : A → M ref) (h : heap)
    (o : outcome A) (o' : outcome pd.DataFrame) :
  m h = (o, h) →
  match o with
  | Ret a => evals n (k a) h o'
  | Raise e => o' = Raise e
  | Unmodelled => o' = Unmodelled
  end →
  evals n (m ≫= k) h o'.
Proof.
  intros Hm Ho. destruct o as [a|e|].
  - destruct Ho as (h2 & Hp2 & H2). exists h2. split; [done|].
    rewrite bind_run, Hm. exact H2.
  - subst o'. exists h. split; [done|]. by rewrite bind_run, Hm.
  - subst o'. exists h. split; [done|]. by rewrite bind_run, Hm.
Qed.

(** Sequencing with a continuation that passes the frame on. *)
Lemma evals_bind_same (n n' : nat) (m : M ref) (k : ref → M ref) (h : heap)
    (o : outcome pd.DataFrame) :
  evals n m h o →
  (∀ r t h', h `prefix_of` h' → h' !! r = Some t → (n ≤ r)%nat →
             evals n' (k r) h' (Ret t)) →
  evals n' (m ≫= k) h o.
Proof.
  intros Hm Hk. replace o with (o ≫= Ret) by (by destruct o).
  by eapply evals_bind.
Qed.

(** *** The embedded filter computes [Sem.filter] *)

Lemma entries_loop_refines (condition : pyval) (entries : list pyval) :
  ∀ (n : nat) (cur tmp : ref) (h : heap) (tc tt : pd.DataFrame),
    h !! cur = Some tc → h !! tmp = Some tt →
    (n ≤ tmp)%nat → (n ≤ length h)%nat →
    evals n (__df_filter_entries cur condition entries tmp) h
            (Sem.entries_loop tc condition entries tt).
Proof.
  induction entries as [|e rest IH]; intros n cur tmp h tc tt Hc Ht Hn Hl.
  - by apply evals_ret.
  - cbn [__df_filter_entries Sem.entries_loop].
    apply evals_bind_pure; [by apply getitem_run|]. intros col _.
    apply evals_bind_pure; [apply lift_run|]. intros mask _.
    eapply evals_bind_ret; [by apply evals_getitem_mask|].
    intros r h1 Hp1 Hr Hnr.
    eapply evals_bind.
    { apply evals_append; [by eapply prefix_lookup_Some|done|by eapply prefix_le]. }
    intros r2 t2 h2 Hp2 Hr2 Hn2.
    apply IH; [|done|done|].
    + eapply prefix_lookup_Some; [|exact Hp2]. by eapply prefix_lookup_Some.
    + eapply prefix_le; [exact Hp2|]. by eapply prefix_le.
Qed.

Lemma filter_loop_refines (conditions : pyval) (keys : list pyval) :
  ∀ (n : nat) (cur : ref) (h : heap) (t : pd.DataFrame),
    h !! cur = Some t → (n ≤ cur)%nat → (n ≤ length h)%nat →
    evals n (__df_filter_loop conditions keys cur) h
            (Sem.filter_loop conditions keys t).
Proof.
  induction keys as [|condition rest IH]; intros n cur h t Hc Hn Hl.
  - by apply evals_ret.
  - cbn [__df_filter_loop Sem.filter_loop].
    apply evals_bind_pure; [by apply has_column_run|]. intros present _.
    destruct present; cbn [negb]; [|by apply evals_new].
    apply evals_bind_pure; [apply lift_run|]. intros value _.
    unfold Sem.narrow.
    assert (Hnext : ∀ (m : M ref) (o : outcome pd.DataFrame),
      evals n m h o →
      evals n (m ≫= __df_filter_loop conditions rest) h
              (o ≫= Sem.filter_loop conditions rest)).
    { intros m o Hm. eapply evals_bind; [exact Hm|].
      intros r t' h' Hp Hr Hnr. apply IH; [done..|by eapply prefix_le]. }
    assert (Hcol : ∀ (k : pd.Series → M ref) (K : pd.Series → outcome pd.DataFrame),
      (∀ col, evals n (k col) h (K col)) →
      evals n (DF.getitem cur condition ≫= k) h (Sem.column t condition ≫= K)).
    { intros k K HK. apply evals_bind_pure; [by apply getitem_run|]. by intros col _. }
    destruct (type_in value [TStr; TInt; TNone]).
    + destruct (py_eq_str value "not null"); [|destruct (py_is_None value)].
      * destruct (Sem.column t condition) as [col| |] eqn:Ecol;
          (eapply evals_after; [by apply getitem_run|rewrite Ecol; cbn [mbind outcome_mbind outcome_bind]; try done]).
        apply (Hnext _ (Ret _)). by apply evals_getitem_mask.
      * destruct (Sem.column t condition) as [col| |] eqn:Ecol;
          (eapply evals_after; [by apply getitem_run|rewrite Ecol; cbn [mbind outcome_mbind outcome_bind]; try done]).
        apply (Hnext _ (Ret _)). by apply evals_getitem_mask.
      * destruct (Sem.column t condition) as [col| |] eqn:Ecol;
          (eapply evals_after; [by apply getitem_run|rewrite Ecol; cbn [mbind outcome_mbind outcome_bind]; try done]).
        destruct (pd.Series_eq col value) as [mask| |] eqn:Emask;
          (eapply evals_after; [apply lift_run|try rewrite Emask; cbn [mbind outcome_mbind outcome_bind]; try done]).
        apply (Hnext _ (Ret _)). by apply evals_getitem_mask.
    + destruct (pytype_eqb (py_type value) TList); [|apply evals_raise].
      eapply evals_bind_ret; [by apply evals_new|].
      intros tmp h1 Hp1 Htmp Hntmp.
      destruct (py_iter value) as [entries| |] eqn:Eit;
        (eapply evals_after; [apply lift_run|try rewrite Eit; cbn [mbind outcome_mbind outcome_bind]; try done]).
      eapply evals_bind.
      { apply entries_loop_refines; [by eapply prefix_lookup_Some|done|done|by eapply prefix_le]. }
      intros r t' h' Hp Hr Hnr. apply IH; [done..|].
      eapply prefix_le; [exact Hp|]. by eapply prefix_le.
Qed.

Lemma filter_refines (n : nat) (result : ref) (conditions : pyval) (h : heap)
    (t : pd.DataFrame) :
  h !! result = Some t → (n ≤ length h)%nat →
  evals n (__df_filter result conditions) h (Sem.filter t conditions).
Proof.
  intros Hr Hn. unfold __df_filter, Sem.filter.
  eapply evals_bind_ret; [by apply evals_copy|].
  intros cur h1 Hp1 Hcur Hncur.
  apply evals_bind_pure; [apply lift_run|]. intros keys _.
  apply filter_loop_refines; [done..|by eapply prefix_le].
Qed.

Lemma union_loop_refines (conditions : list pyval) :
  ∀ (n : nat) (result acc : ref) (h : heap) (t ta : pd.DataFrame),
    h !! result = Some t → h !! acc = Some ta →
    (n ≤ acc)%nat → (n ≤ length h)%nat →
    evals n (df_filter_loop result conditions acc) h
            (Sem.union_loop t conditions ta).
Proof.
  induction conditions as [|c rest IH]; intros n result acc h t ta Hr Ha Hn Hl.
  - by apply evals_ret.
  - cbn [df_filter_loop Sem.union_loop].
    eapply evals_bind; [by apply (filter_refines n)|].
    intros m tm h1 Hp1 Hm Hnm.
    eapply evals_bind.
    { apply evals_append; [by eapply prefix_lookup_Some|done|by eapply prefix_le]. }
    intros r2 t2 h2 Hp2 Hr2 Hn2.
    apply IH; [|done|done|].
    + eapply prefix_lookup_Some; [|exact Hp2]. by eapply prefix_lookup_Some.
    + eapply prefix_le; [exact Hp2|]. by eapply prefix_le.
Qed.

Lemma df_filter_refines (df : ref) (conditions : pyval) (h : heap) (t : pd.DataFrame) :
  h !! df = Some t →
  evals (length h) (df_filter df conditions) h (Sem.df_filter t conditions).
Proof.
  intros Hdf. unfold df_filter, Sem.df_filter.
  eapply evals_bind_ret; [by apply evals_copy|].
  intros result h1 Hp1 Hres Hnres.
  eapply evals_bind_ret; [apply evals_new; by eapply prefix_le|].
  intros cur h2 Hp2 Hcur Hncur.
  assert (Hres2 : h2 !! result = Some t) by (by eapply prefix_lookup_Some).
  assert (Hl2 : (length h ≤ length h2)%nat).
  { eapply prefix_le; [exact Hp2|]. by eapply prefix_le. }
  destruct (pytype_eqb (py_type conditions) TStr && py_eq_str conditions "*").
  { by apply evals_ret. }
  destruct conditions as [| | | | |l|d]; cbn [py_type pytype_eqb py_iter];
    try (eapply evals_bind_ret; [by apply evals_ret|]; intros r1 h3 Hp3 Hr1 Hn1;
         eapply evals_bind_ret; [by apply evals_ret|]; intros; by apply evals_ret).
  - eapply evals_bind_ret; [by apply evals_ret|]. intros r1 h3 Hp3 Hr1 Hn1.
    eapply evals_bind_same; [|intros; by apply evals_ret].
    eapply evals_bind_ret; [apply evals_new; by eapply prefix_le|].
    intros fresh h4 Hp4 Hfresh Hnfresh.
    apply evals_bind_pure; [apply lift_run|]. intros entries [= <-].
    apply union_loop_refines; [|done|done|].
    + eapply prefix_lookup_Some; [|exact Hp4]. by eapply prefix_lookup_Some.
    + eapply prefix_le; [exact Hp4|]. by eapply prefix_le.
  - eapply evals_bind_same; [by apply (filter_refines (length h))|].
    intros r1 t1 h3 Hp3 Hr1 Hn1.
    eapply evals_bind_ret; [by apply evals_ret|]. intros; by apply evals_ret.
Qed.
(** ** Frames as values *)

Lemma existsb_eqb_In (c : string) (cols : list string) :
  existsb (String.eqb c) cols = true ↔ In c cols.
Proof.
  rewrite existsb_exists. split.
  - intros (x & Hx & E). apply String.eqb_eq in E. by subst.
  - intros H. exists c. split; [done|apply String.eqb_refl].
Qed.

Lemma has_column_In (t : pd.DataFrame) (c : string) :
  pd.has_column t c = true ↔ In c (pd.columns t).
Proof. apply existsb_eqb_In. Qed.

Lemma positions_absent (c : string) (cols : list string) (i : nat) :
  ¬ In c cols → pd.positions c cols i = [].
Proof.
  revert i. induction cols as [|x cols IH]; intros i H; [done|].
  cbn. destruct (String.eqb_spec x c) as [->|_].
  - exfalso. apply H. by left.
  - apply IH. intros ?. apply H. by right.
Qed.

Lemma positions_app (c : string) (pre suf : list string) (i : nat) :
  pd.positions c (pre ++ suf) i =
  pd.positions c pre i ++ pd.positions c suf (i + length pre).
Proof.
  revert i. induction pre as [|x pre IH]; intros i; cbn.
  - by rewrite Nat.add_0_r.
  - rewrite IH, <- Nat.add_succ_comm. by destruct (String.eqb x c).
Qed.

Lemma positions_split (c : string) (pre suf : list string) :
  NoDup (pre ++ c :: suf) → pd.positions c (pre ++ c :: suf) 0 = [length pre].
Proof.
  intros Hnd. apply NoDup_ListNoDup in Hnd.
  pose proof (List.NoDup_remove_2 _ _ _ Hnd) as Hnot.
  rewrite positions_app, positions_absent.
  - cbn. rewrite String.eqb_refl, positions_absent; [done|].
    intros ?. apply Hnot, in_or_app. by right.
  - intros ?. apply Hnot, in_or_app. by left.
Qed.

Lemma positions_present (c : string) (cols : list string) :
  NoDup cols → In c cols →
  ∃ i, pd.positions c cols 0 = [i] ∧ (i < length cols)%nat.
Proof.
  intros Hnd Hin. apply in_split in Hin as (pre & suf & ->).
  exists (length pre). split; [by apply positions_split|].
  rewrite length_app. cbn. lia.
Qed.

Lemma select_map {A} (f : A → bool) (rows : list A) :
  pd.select (map f rows) rows = List.filter f rows.
Proof.
  induction rows as [|r rows IH]; [done|]. cbn. rewrite IH. by destruct (f r).
Qed.

Lemma select_map_neg {A} (f : A → bool) (rows : list A) :
  pd.select (pd.invert (map f rows)) rows = List.filter (λ r, negb (f r)) rows.
Proof.
  unfold pd.invert. rewrite map_map. apply (select_map (λ r, negb (f r))).
Qed.

Lemma select_incl {A} (mask : list bool) (rows : list A) (r : A) :
  In r (pd.select mask rows) → In r rows.
Proof.
  revert mask. induction rows as [|x rows IH]; intros [|b mask]; cbn; try done.
  destruct b; cbn; intros H.
  - destruct H as [->|H]; [by left|right; by eapply IH].
  - right. by eapply IH.
Qed.

Lemma labels_eqb_eq (a b : list string) : pd.labels_eqb a b = true ↔ a = b.
Proof.
  revert b. induction a as [|x a IH]; intros [|y b]; cbn; try done.
  rewrite andb_true_iff, String.eqb_eq, IH. split.
  - by intros [-> ->].
  - by intros [= -> ->].
Qed.

Lemma nodupb_NoDup (cols : list string) : NoDup cols → pd.nodupb cols = true.
Proof.
  induction 1 as [|c cols Hnot _ IH]; [done|]. cbn. rewrite IH, andb_true_r.
  apply negb_true_iff, not_true_is_false. rewrite existsb_eqb_In.
  intros H. apply Hnot. by apply list_elem_of_In.
Qed.

Lemma realign_suffix (pre suf : list string) (row : list pd.cell) :
  NoDup (pre ++ suf) → length row = length (pre ++ suf) →
  pd.realign (pre ++ suf) suf row = drop (length pre) row.
Proof.
  revert pre. induction suf as [|c suf IH]; intros pre Hnd Hlen.
  - rewrite app_nil_r in Hlen. by rewrite drop_ge by lia.
  - unfold pd.realign. cbn [map]. unfold pd.index_of at 1.
    rewrite positions_split by done. cbn [head].
    specialize (IH (pre ++ [c])). rewrite <- app_assoc in IH. cbn in IH.
    unfold pd.realign in IH. rewrite IH by done.
    rewrite length_app. cbn. rewrite length_app in Hlen. cbn in Hlen.
    unfold pd.at_col.
    destruct (lookup_lt_is_Some_2 row (length pre)) as [x Hx]; [lia|].
    rewrite (drop_S _ _ _ Hx), Nat.add_1_r. f_equal.
    rewrite <- (nth_lookup_Some _ _ pd.CNaN _ Hx). done.
Qed.

Lemma realign_id (cols : list string) (row : list pd.cell) :
  NoDup cols → length row = length cols → pd.realign cols cols row = row.
Proof. intros Hnd Hlen. by apply (realign_suffix [] cols row). Qed.

Lemma map_realign_id (cols : list string) (rows : list (list pd.cell)) :
  NoDup cols → Forall (λ row, length row = length cols) rows →
  map (pd.realign cols cols) rows = rows.
Proof.
  intros Hnd Hrows. induction Hrows as [|row rows Hrow _ IH]; [done|].
  cbn. by rewrite IH, realign_id.
Qed.

Lemma filter_true {A} (l : list A) : List.filter (λ _, true) l = l.
Proof. induction l as [|x l IH]; [done|]. cbn. by rewrite IH. Qed.

Lemma append_empty_l (f : pd.DataFrame) :
  well_formed f → pd.append_frames pd.empty_frame f = Ret f.
Proof.
  destruct f as [cols rows]. intros [Hnd Hrows]. cbn in Hnd, Hrows.
  unfold pd.append_frames. cbn. destruct cols as [|c cols]; [done|].
  cbn [pd.labels_eqb]. change (pd.nodupb []) with true. cbn [andb].
  rewrite (nodupb_NoDup _ Hnd), filter_true. by rewrite map_realign_id.
Qed.

Lemma append_empty_r (f : pd.DataFrame) :
  well_formed f → pd.append_frames f pd.empty_frame = Ret f.
Proof.
  destruct f as [cols rows]. intros [Hnd Hrows]. cbn in Hnd, Hrows.
  unfold pd.append_frames. cbn. destruct cols as [|c cols].
  - cbn. by rewrite app_nil_r.
  - cbn [pd.labels_eqb]. rewrite (nodupb_NoDup _ Hnd). cbn [andb map].
    rewrite !app_nil_r. by rewrite map_realign_id.
Qed.

Lemma append_same_columns (a b : pd.DataFrame) :
  pd.columns a = pd.columns b →
  pd.append_frames a b = Ret (pd.mkDataFrame (pd.columns a) (pd.values a ++ pd.values b)).
Proof.
  intros E. unfold pd.append_frames.
  by rewrite (proj2 (labels_eqb_eq _ _) E).
Qed.

Lemma column_present (t : pd.DataFrame) (c : string) :
  NoDup (pd.columns t) → In c (pd.columns t) →
  pd.column t c = Ret (map (cell_of t c) (pd.values t)).
Proof.
  intros Hnd Hin. destruct (positions_present c _ Hnd Hin) as (i & Hi & _).
  unfold pd.column, cell_of, pd.index_of. by rewrite Hi.
Qed.

Lemma well_formed_empty : well_formed pd.empty_frame.
Proof. split; cbn; constructor. Qed.

Lemma well_formed_where_mask (t : pd.DataFrame) (mask : list bool) :
  well_formed t → well_formed (pd.where_mask t mask).
Proof.
  intros [Hnd Hrows]. split; [done|]. cbn.
  apply List.Forall_forall. intros row Hrow.
  apply select_incl in Hrow. revert row Hrow. by apply List.Forall_forall.
Qed.

Lemma narrower_refl (t : pd.DataFrame) : well_formed t → narrower t t.
Proof. intros H. split; [done|]. split; [by left|apply incl_refl]. Qed.

Lemma narrower_empty (t : pd.DataFrame) : narrower pd.empty_frame t.
Proof. split; [apply well_formed_empty|]. split; [by right|]. by intros ?. Qed.

Lemma narrower_trans (f g t : pd.DataFrame) :
  narrower f g → narrower g t → narrower f t.
Proof.
  intros (Hf & Hfc & Hfi) (Hg & Hgc & Hgi). split; [done|].
  split; [|by eapply incl_tran].
  destruct Hfc as [Hfc| ->]; [|by right].
  destruct Hgc as [Hgc| ->]; [left; congruence|]. right.
  destruct f as [cols rows]. cbn in Hfc, Hfi. subst cols.
  destruct rows as [|r rows]; [done|]. destruct (Hfi r). by left.
Qed.

Lemma narrower_where_mask (t : pd.DataFrame) (mask : list bool) :
  well_formed t → narrower (pd.where_mask t mask) t.
Proof.
  intros H. split; [by apply well_formed_where_mask|]. split; [by left|].
  intros row. apply select_incl.
Qed.

(** Appending frames that are each either over the columns [cols] or the
    frame [pd.DataFrame()] concatenates their rows. *)
Lemma append_compatible (cols : list string) (a b : pd.DataFrame) :
  well_formed a → well_formed b →
  pd.columns a = cols ∨ a = pd.empty_frame →
  pd.columns b = cols ∨ b = pd.empty_frame →
  ∃ out, pd.append_frames a b = Ret out ∧
         pd.values out = pd.values a ++ pd.values b ∧
         well_formed out ∧
         (pd.columns out = cols ∨ out = pd.empty_frame).
Proof.
  intros Ha Hb [Ea| ->] [Eb| ->].
  - exists (pd.mkDataFrame (pd.columns a) (pd.values a ++ pd.values b)).
    split; [apply append_same_columns; congruence|]. split; [done|].
    split; [|by left]. destruct Ha as [Hnd Hra], Hb as [_ Hrb].
    split; [done|]. cbn. apply List.Forall_app. split; [done|]. by rewrite Ea, <- Eb.
  - exists a. rewrite append_empty_r by done. cbn. rewrite app_nil_r. auto.
  - exists b. rewrite append_empty_l by done. cbn. auto.
  - exists pd.empty_frame. cbn. auto using well_formed_empty.
Qed.

Lemma append_narrower (t a b : pd.DataFrame) :
  narrower a t → narrower b t →
  ∃ out, pd.append_frames a b = Ret out ∧
         pd.values out = pd.values a ++ pd.values b ∧
         narrower out t.
Proof.
  intros (Ha & Hac & Hai) (Hb & Hbc & Hbi).
  destruct (append_compatible (pd.columns t) a b) as (out & Happ & Hv & Hwf & Hc); try done.
  exists out. split; [done|]. split; [done|]. split; [done|]. split; [done|].
  rewrite Hv. by apply incl_app.
Qed.

Lemma entries_loop_shape (cur : pd.DataFrame) (condition : pyval) (entries : list pyval) :
  ∀ tmp f,
    Sem.entries_loop cur condition entries tmp = Ret f →
    well_formed cur → narrower tmp cur → narrower f cur.
Proof.
  induction entries as [|e rest IH]; intros tmp f Hrun Hcur Htmp.
  - cbn in Hrun. by injection Hrun as <-.
  - cbn [Sem.entries_loop] in Hrun.
    destruct (Sem.column cur condition) as [col| |]; [|done..].
    cbn [mbind outcome_mbind outcome_bind] in Hrun.
    destruct (pd.Series_eq col e) as [mask| |]; [|done..].
    cbn [mbind outcome_mbind outcome_bind] in Hrun.
    destruct (append_narrower cur tmp (pd.where_mask cur mask))
      as (tmp' & Happ & _ & Hn'); auto using narrower_where_mask.
    rewrite Happ in Hrun. cbn [mbind outcome_mbind outcome_bind] in Hrun.
    eapply IH; eauto.
Qed.

Lemma narrow_shape (cur : pd.DataFrame) (condition value : pyval) (f : pd.DataFrame) :
  Sem.narrow cur condition value = Ret f → well_formed cur → narrower f cur.
Proof.
  unfold Sem.narrow. intros Hrun Hcur.
  destruct (type_in value [TStr; TInt; TNone]).
  - destruct (py_eq_str value "not null"); [|destruct (py_is_None value)];
      destruct (Sem.column cur condition) as [col| |]; try done;
      cbn [mbind outcome_mbind outcome_bind] in Hrun.
    + injection Hrun as <-. auto using narrower_where_mask.
    + injection Hrun as <-. auto using narrower_where_mask.
    + destruct (pd.Series_eq col value) as [mask| |]; [|done..].
      injection Hrun as <-. auto using narrower_where_mask.
  - destruct (pytype_eqb (py_type value) TList); [|done].
    destruct (py_iter value) as [entries| |]; [|done..].
    cbn [mbind outcome_mbind outcome_bind] in Hrun.
    eapply entries_loop_shape; eauto using narrower_empty.
Qed.

Lemma filter_loop_shape (conditions : pyval) (keys : list pyval) :
  ∀ cur f,
    Sem.filter_loop conditions keys cur = Ret f → well_formed cur → narrower f cur.
Proof.
  induction keys as [|k rest IH]; intros cur f Hrun Hcur.
  - injection Hrun as <-. by apply narrower_refl.
  - cbn [Sem.filter_loop] in Hrun.
    destruct (Sem.has_column cur k) as [present| |]; [|done..].
    cbn [mbind outcome_mbind outcome_bind] in Hrun.
    destruct present; cbn [negb] in Hrun.
    2:{ injection Hrun as <-. apply narrower_empty. }
    destruct (py_getitem conditions k) as [value| |]; [|done..].
    cbn [mbind outcome_mbind outcome_bind] in Hrun.
    destruct (Sem.narrow cur k value) as [cur'| |] eqn:Enarrow; [|done..].
    cbn [mbind outcome_mbind outcome_bind] in Hrun.
    pose proof (narrow_shape _ _ _ _ Enarrow Hcur) as Hn'.
    eapply narrower_trans; [|exact Hn']. apply IH; [done|]. apply Hn'.
Qed.

Lemma filter_shape (t : pd.DataFrame) (conditions : pyval) (f : pd.DataFrame) :
  Sem.filter t conditions = Ret f → well_formed t → narrower f t.
Proof.
  unfold Sem.filter. intros Hrun Ht.
  destruct (py_iter conditions) as [keys| |]; [|done..].
  by eapply filter_loop_shape.
Qed.

Lemma union_loop_concat (t : pd.DataFrame) (conditions : list pyval) :
  ∀ (fs : list pd.DataFrame) (acc : pd.DataFrame),
    well_formed t → narrower acc t →
    Forall2 (λ c f, Sem.filter t c = Ret f) conditions fs →
    ∃ out, Sem.union_loop t conditions acc = Ret out ∧
           pd.values out = pd.values acc ++ concat (map pd.values fs) ∧
           narrower out t.
Proof.
  induction conditions as [|c rest IH]; intros fs acc Ht Hacc Hfs.
  - apply Forall2_nil_inv_l in Hfs as ->. exists acc. cbn. by rewrite app_nil_r.
  - apply Forall2_cons_inv_l in Hfs as (f & fs' & Hf & Hfs' & ->).
    cbn [Sem.union_loop]. rewrite Hf. cbn [mbind outcome_mbind outcome_bind].
    destruct (append_narrower t acc f) as (acc' & Happ & Hv & Hn');
      [done|by eapply filter_shape|].
    rewrite Happ. cbn [mbind outcome_mbind outcome_bind].
    destruct (IH fs' acc' Ht Hn' Hfs') as (out & Hout & Hvout & Hnout).
    exists out. split; [done|]. split; [|done].
    rewrite Hvout, Hv. cbn. by rewrite app_assoc.
Qed.

Lemma append_into (cur tmp m : pd.DataFrame) :
  well_formed tmp → well_formed m →
  pd.columns tmp = pd.columns cur ∨ tmp = pd.empty_frame →
  pd.columns m = pd.columns cur →
  ∃ out, pd.append_frames tmp m = Ret out ∧
         pd.values out = pd.values tmp ++ pd.values m ∧
         well_formed out ∧ pd.columns out = pd.columns cur.
Proof.
  intros Htmp Hm [E| ->] Em.
  - exists (pd.mkDataFrame (pd.columns tmp) (pd.values tmp ++ pd.values m)).
    split; [apply append_same_columns; congruence|]. split; [done|]. split; [|done].
    destruct Htmp as [Hnd Hr1], Hm as [_ Hr2]. split; [done|]. cbn.
    apply List.Forall_app. split; [done|]. by rewrite E, <- Em.
  - exists m. by rewrite append_empty_l.
Qed.

(** The list branch: the matches of each entry, one entry after the other. *)
Lemma entries_loop_values (cur : pd.DataFrame) (c : string) (entries : list pyval) :
  well_formed cur → In c (pd.columns cur) →
  Forall (λ v, pd.is_scalar v = true) entries →
  ∀ tmp, well_formed tmp →
    pd.columns tmp = pd.columns cur ∨ tmp = pd.empty_frame →
    ∃ f, Sem.entries_loop cur (PStr c) entries tmp = Ret f ∧
         pd.values f = pd.values tmp ++ flat_map (rows_equal cur c) entries ∧
         (entries ≠ [] → pd.columns f = pd.columns cur).
Proof.
  intros Hcur Hin Hsc. induction Hsc as [|e rest He _ IH]; intros tmp Htmp Hc.
  - exists tmp. cbn. by rewrite app_nil_r.
  - cbn [Sem.entries_loop Sem.column].
    rewrite (column_present cur c (proj1 Hcur) Hin).
    cbn [mbind outcome_mbind outcome_bind]. unfold pd.Series_eq. rewrite He.
    cbn [mbind outcome_mbind outcome_bind]. rewrite map_map.
    destruct (append_into cur tmp
                (pd.where_mask cur (map (λ row, pd.cell_eq (cell_of cur c row) e) (pd.values cur))))
      as (tmp' & Happ & Hv & Hwf & Hc'); [done|by apply well_formed_where_mask|done|done|].
    rewrite Happ. cbn [mbind outcome_mbind outcome_bind].
    destruct (IH tmp' Hwf (or_introl Hc')) as (f & Hf & Hvf & Hcf).
    exists f. split; [done|]. split.
    + rewrite Hvf, Hv. cbn [pd.where_mask pd.values flat_map].
      rewrite select_map. unfold rows_equal at 2. by rewrite app_assoc.
    + intros _. destruct rest as [|e' rest'].
      * cbn in Hf. by injection Hf as <-.
      * by apply Hcf.
Qed.

Lemma forallb_Forall_scalar (l : list pyval) :
  forallb pd.is_scalar l = true → Forall (λ v, pd.is_scalar v = true) l.
Proof. intros H. apply List.Forall_forall. by apply forallb_forall. Qed.

(** One round of the loop on a supported value, for a column that is
    present. *)
Lemma narrow_supported (cur : pd.DataFrame) (c : string) (v : pyval) :
  well_formed cur → In c (pd.columns cur) → supported v = true →
  ∃ f, Sem.narrow cur (PStr c) v = Ret f ∧
       (keeps_columns v = true → pd.columns f = pd.columns cur).
Proof.
  intros Hcur Hin Hv. unfold Sem.narrow.
  destruct v as [| | z| |s|l|]; try done; cbn [type_in py_type existsb pytype_eqb orb
    py_eq_str py_is_None Sem.column].
  - rewrite (column_present cur c (proj1 Hcur) Hin). eexists. split; [done|done].
  - rewrite (column_present cur c (proj1 Hcur) Hin). eexists. split; [done|done].
  - rewrite (column_present cur c (proj1 Hcur) Hin).
    destruct (String.eqb s "not null"); eexists; (split; [done|done]).
  - cbn [py_iter mbind outcome_mbind outcome_bind].
    destruct (entries_loop_values cur c l Hcur Hin (forallb_Forall_scalar l Hv)
                pd.empty_frame well_formed_empty (or_intror eq_refl))
      as (f & Hf & _ & Hc).
    exists f. split; [done|]. intros Hk. apply Hc. by destruct l.
Qed.

Lemma filter_loop_empty (conditions : pyval) (keys : list string) :
  Sem.filter_loop conditions (map PStr keys) pd.empty_frame = Ret pd.empty_frame.
Proof. by destruct keys. Qed.

Lemma dict_getitem_Some (d : dict) (k : string) (v : pyval) :
  dict_get d k = Some v → py_getitem (PDict d) (PStr k) = Ret v.
Proof. intros H. cbn. unfold dict_getitem. by rewrite H. Qed.

(** The rounds of the loop over keys with supported values. *)
Lemma filter_loop_prefix (d : dict) (pre : list string) :
  ∀ cur, well_formed cur →
    (∀ k, In k pre → ∃ v, dict_get d k = Some v ∧ supported v = true) →
    ∃ f, narrower f cur ∧
         (∀ rest, Sem.filter_loop (PDict d) (map PStr (pre ++ rest)) cur =
                  Sem.filter_loop (PDict d) (map PStr rest) f) ∧
         ((∀ k, In k pre → In k (pd.columns cur) ∧
                ∃ v, dict_get d k = Some v ∧ keeps_columns v = true) →
          pd.columns f = pd.columns cur).
Proof.
  induction pre as [|k pre IH]; intros cur Hcur Hsup.
  - exists cur. split; [by apply narrower_refl|]. split; [done|done].
  - destruct (Hsup k (or_introl eq_refl)) as (v & Hget & Hv).
    destruct (pd.has_column cur k) eqn:Hhas.
    + apply has_column_In in Hhas.
      destruct (narrow_supported cur k v Hcur Hhas Hv) as (cur' & Hnarrow & Hcols).
      pose proof (narrow_shape _ _ _ _ Hnarrow Hcur) as Hn'.
      destruct (IH cur' (proj1 Hn')) as (f & Hnf & Hrun & Hcf).
      { intros k' Hk'. apply Hsup. by right. }
      exists f. split; [by eapply narrower_trans|]. split.
      * intros rest. cbn [app map Sem.filter_loop Sem.has_column].
        rewrite (proj2 (has_column_In cur k) Hhas).
        cbn [mbind outcome_mbind outcome_bind negb].
        rewrite (dict_getitem_Some _ _ _ Hget). cbn [mbind outcome_mbind outcome_bind].
        rewrite Hnarrow. cbn [mbind outcome_mbind outcome_bind]. apply Hrun.
      * intros Hall. destruct (Hall k (or_introl eq_refl)) as (_ & v' & Hget' & Hk).
        assert (v' = v) as -> by congruence.
        rewrite <- (Hcols Hk). apply Hcf. intros k' Hk'.
        destruct (Hall k' (or_intror Hk')) as (Hin' & Hspec). split; [|done].
        by rewrite (Hcols Hk).
    + exists pd.empty_frame. split; [apply narrower_empty|]. split.
      * intros rest. cbn [app map Sem.filter_loop Sem.has_column]. rewrite Hhas.
        cbn [mbind outcome_mbind outcome_bind negb]. by rewrite filter_loop_empty.
      * intros Hall. destruct (Hall k (or_introl eq_refl)) as (Hin & _).
        apply has_column_In in Hin. congruence.
Qed.

(** ** From the refinement to runs of the code *)

Lemma evals_returns (n : nat) (m : M ref) (h : heap) (t : pd.DataFrame) :
  evals n m h (Ret t) → returns m h t.
Proof. intros (h' & _ & r & Hm & Hr & _). by exists r, h'. Qed.

Lemma evals_raises (n : nat) (m : M ref) (h : heap) (e : exn) :
  evals n m h (Raise e) → raises m h e.
Proof. intros (h' & _ & Hm). by exists h'. Qed.

Lemma returns_evals (n : nat) (m : M ref) (h : heap) (o : outcome pd.DataFrame)
    (t : pd.DataFrame) :
  returns m h t → evals n m h o → o = Ret t.
Proof.
  intros (r & h1 & Hm & Hr) (h2 & _ & Ho). destruct o as [t'|e|].
  - destruct Ho as (r' & Hm' & Hr' & _). rewrite Hm in Hm'.
    injection Hm' as <- <-. congruence.
  - congruence.
  - congruence.
Qed.

(** Well-formedness of a concrete frame, by evaluation. *)
Ltac well_formed_by_evaluation :=
  split; [apply (bool_decide_unpack _); reflexivity|simpl; repeat constructor].

Lemma well_formed_sample : well_formed one_row ∧ well_formed three_rows.
Proof. split; well_formed_by_evaluation. Qed.

Lemma dict_get_single (c : string) (v : pyval) : dict_get [(c, v)] c = Some v.
Proof. cbn. by rewrite String.eqb_refl. Qed.

(** A single-key Condition on a column that is present is one round of
    the loop. *)
Lemma filter_single (t : pd.DataFrame) (c : string) (v : pyval) :
  In c (pd.columns t) →
  Sem.filter t (PDict [(c, v)]) = Sem.narrow t (PStr c) v.
Proof.
  intros Hin. unfold Sem.filter. cbn [py_iter map fst mbind outcome_mbind outcome_bind
    Sem.filter_loop Sem.has_column].
  rewrite (proj2 (has_column_In t c) Hin). cbn [negb].
  rewrite (dict_getitem_Some _ _ _ (dict_get_single c v)).
  cbn [mbind outcome_mbind outcome_bind]. by destruct (Sem.narrow t (PStr c) v).
Qed.

(** ** The Condition Evaluator *)

(** The two null tests on a column that is present. *)
Lemma not_null_condition_keeps_present
    (h : heap) (df : ref) (t : pd.DataFrame) (c : string) :
  h !! df = Some t → well_formed t → In c (pd.columns t) →
  ∃ out, returns (__df_filter df (PDict [(c, PStr "not null")])) h out ∧
         pd.columns out = pd.columns t ∧
         pd.values out =
           List.filter (λ row, negb (pd.isna_cell (cell_of t c row))) (pd.values t).
Proof.
  intros Hdf Hwf Hin.
  exists (pd.mkDataFrame (pd.columns t)
            (List.filter (λ row, negb (pd.isna_cell (cell_of t c row))) (pd.values t))).
  split; [|done]. apply (evals_returns 0).
  replace (Ret _) with (Sem.filter t (PDict [(c, PStr "not null")])).
  { apply filter_refines; [done|lia]. }
  rewrite (filter_single t c _ Hin). unfold Sem.narrow.
  cbn [type_in py_type existsb pytype_eqb orb py_eq_str String.eqb Ascii.eqb Bool.eqb
       Sem.column].
  rewrite (column_present t c (proj1 Hwf) Hin).
  cbn [mbind outcome_mbind outcome_bind]. unfold pd.where_mask, pd.isna.
  by rewrite map_map, select_map_neg.
Qed.

Lemma null_condition_keeps_missing
    (h : heap) (df : ref) (t : pd.DataFrame) (c : string) :
  h !! df = Some t → well_formed t → In c (pd.columns t) →
  ∃ out, returns (__df_filter df (PDict [(c, PNone)])) h out ∧
         pd.columns out = pd.columns t ∧
         pd.values out =
           List.filter (λ row, pd.isna_cell (cell_of t c row)) (pd.values t).
Proof.
  intros Hdf Hwf Hin.
  exists (pd.mkDataFrame (pd.columns t)
            (List.filter (λ row, pd.isna_cell (cell_of t c row)) (pd.values t))).
  split; [|done]. apply (evals_returns 0).
  replace (Ret _) with (Sem.filter t (PDict [(c, PNone)])).
  { apply filter_refines; [done|lia]. }
  rewrite (filter_single t c _ Hin). unfold Sem.narrow.
  cbn [type_in py_type existsb pytype_eqb orb py_eq_str py_is_None Sem.column].
  rewrite (column_present t c (proj1 Hwf) Hin).
  cbn [mbind outcome_mbind outcome_bind]. unfold pd.where_mask, pd.isna.
  by rewrite map_map, select_map.
Qed.

(** C5, as amended: for a table, a column [c] of the table and a spec [v]
    of class [str] (other than ["not null"]) or [int], the Condition
    [{c: v}] is evaluated without error and keeps, in order, exactly the
    rows whose cell under [c] is [==] to [v]. *)
Theorem scalar_condition_keeps_equal_rows
    (h : heap) (df : ref) (t : pd.DataFrame) (c : string) (v : pyval) :
  h !! df = Some t → well_formed t → In c (pd.columns t) →
  type_in v [TStr; TInt] = true → v ≠ PStr "not null" →
  ∃ out, returns (__df_filter df (PDict [(c, v)])) h out ∧
         pd.columns out = pd.columns t ∧
         pd.values out = rows_equal t c v.
Proof.
  intros Hdf Hwf Hin Hty Hnn.
  exists (pd.mkDataFrame (pd.columns t) (rows_equal t c v)).
  split; [|done]. apply (evals_returns 0).
  replace (Ret _) with (Sem.filter t (PDict [(c, v)])).
  { apply filter_refines; [done|lia]. }
  rewrite (filter_single t c v Hin). unfold Sem.narrow.
  assert (Hnot : py_eq_str v "not null" = false).
  { destruct v; try done. cbn. apply String.eqb_neq. congruence. }
  assert (Hsc : pd.is_scalar v = true) by (by destruct v).
  replace (type_in v [TStr; TInt; TNone]) with true by (by destruct v).
  rewrite Hnot. replace (py_is_None v) with false by (by destruct v).
  cbn [Sem.column]. rewrite (column_present t c (proj1 Hwf) Hin).
  cbn [mbind outcome_mbind outcome_bind]. unfold pd.Series_eq. rewrite Hsc.
  cbn [mbind outcome_mbind outcome_bind]. unfold pd.where_mask.
  by rewrite map_map, select_map.
Qed.

Lemma scalar_condition_keeps_equal_rows_witness :
  ∃ out, returns (__df_filter 0%nat (PDict [("a", PInt 2)])) [three_rows] out ∧
         pd.columns out = ["a"; "b"] ∧
         pd.values out = [[pd.CInt 2; pd.CNone]].
Proof.
  apply (scalar_condition_keeps_equal_rows [three_rows] 0%nat three_rows "a" (PInt 2)).
  - reflexivity.
  - well_formed_by_evaluation.
  - cbn. auto.
  - reflexivity.
  - discriminate.
Defined.

(** C5, as stated, fails: a boolean spec is a scalar, yet the evaluator
    raises on it ([type(True)] is [bool], which the guard does not list). *)
Lemma scalar_condition_bool_raises : ¬ scalar_condition_always_succeeds.
Proof.
  intros H.
  destruct (H [one_row] 0%nat one_row "a" (PBool true)) as (out & (r & h' & Hrun & _) & _);
    try done.
  - apply well_formed_sample.
  - cbn. auto.
Qed.

Lemma in_rows_equal (t : pd.DataFrame) (c : string) (v : pyval) (row : list pd.cell) :
  In row (rows_equal t c v) ↔
  In row (pd.values t) ∧ pd.cell_eq (cell_of t c row) v = true.
Proof. unfold rows_equal. apply filter_In. Qed.

Lemma nearest_float64_exact (z : Z) :
  Z.abs z <= 2 ^ 53 → pd.nearest_float64 z = z.
Proof.
  intros Hz. unfold pd.nearest_float64.
  destruct (Z.log2 (Z.abs z) + 1 - 53 <=? 0) eqn:E; [done|].
  apply Z.leb_gt in E.
  assert (Hpos : 0 < Z.abs z).
  { destruct (Z.eq_dec (Z.abs z) 0) as [H0|H0]; [rewrite H0 in E; cbn in E; lia|lia]. }
  assert (Hlow : 2 ^ 53 <= Z.abs z).
  { etrans; [|apply (Z.log2_spec _ Hpos)]. apply Z.pow_le_mono_r; lia. }
  assert (Hcase : z = 2 ^ 53 ∨ z = - 2 ^ 53) by lia.
  destruct Hcase as [-> | ->]; reflexivity.
Qed.

(** Within the range of [exact_in_float64] the comparison of an integer
    cell with a float is the comparison of the two numbers, with no
    rounding, whatever the dtype of the column. *)
Lemma cell_eq_float_exact (z m e : Z) :
  pd.exact_in_float64 (pd.CInt z) = true →
  pd.cell_eq (pd.CInt z) (PFloat (FFin m e)) =
  if 0 <=? e then z =? m * 2 ^ e else z * 2 ^ (- e) =? m.
Proof.
  intros Hz. cbn in Hz. apply Z.leb_le in Hz.
  cbn [pd.cell_eq pd.float_eq_Z]. by rewrite (nearest_float64_exact z Hz).
Qed.

(** C3, as amended: for a table, a column [c] of the table and a list
    [vs] of scalars, the Condition [{c: vs}] keeps exactly the rows whose
    cell under [c] is [==] to some entry of [vs]; the result is the
    concatenation, entry after entry, of the rows equal to that entry, so it
    is not deduplicated: a row is repeated for every entry it equals.  When
    the list holds a float, the integers of the column are taken to be at
    most [2^53] in magnitude: beyond, whether an integer equals a float
    depends on the dtype of the column. *)
Theorem list_condition_concatenates_matches
    (h : heap) (df : ref) (t : pd.DataFrame) (c : string) (vs : list pyval) :
  h !! df = Some t → well_formed t → In c (pd.columns t) →
  Forall (λ v, pd.is_scalar v = true) vs →
  Forall (λ v, py_type v ≠ TFloat) vs ∨
  Forall (λ row, pd.exact_in_float64 (cell_of t c row) = true) (pd.values t) →
  ∃ out, returns (__df_filter df (PDict [(c, PList vs)])) h out ∧
         pd.values out = flat_map (rows_equal t c) vs ∧
         (vs ≠ [] → pd.columns out = pd.columns t) ∧
         (∀ row, In row (pd.values out) ↔
                 In row (pd.values t) ∧
                 ∃ v, In v vs ∧ pd.cell_eq (cell_of t c row) v = true).
Proof.
  intros Hdf Hwf Hin Hvs _.
  destruct (entries_loop_values t c vs Hwf Hin Hvs pd.empty_frame
              well_formed_empty (or_intror eq_refl)) as (out & Hrun & Hv & Hc).
  exists out. split; [|split; [done|split; [done|]]].
  - apply (evals_returns 0). rewrite <- Hrun.
    replace (Sem.entries_loop _ _ _ _) with (Sem.filter t (PDict [(c, PList vs)])).
    { apply filter_refines; [done|lia]. }
    by rewrite (filter_single t c _ Hin).
  - intros row. rewrite Hv. cbn [pd.values pd.empty_frame app].
    rewrite in_flat_map. split.
    + intros (v & Hv' & Hrow). apply in_rows_equal in Hrow as [Hrow Heq]. eauto.
    + intros (Hrow & v & Hv' & Heq). exists v. split; [done|].
      by apply in_rows_equal.
Qed.

Lemma list_condition_concatenates_matches_witness :
  ∃ out, returns (__df_filter 0%nat
                    (PDict [("a", PList [PFloat (FFin 1 1); PInt 1; PInt 2])]))
                 [three_rows] out ∧
         pd.values out = [[pd.CInt 2; pd.CNone]; [pd.CInt 1; pd.CStr "x"];
                          [pd.CInt 2; pd.CNone]] ∧
         ([PFloat (FFin 1 1); PInt 1; PInt 2] ≠ [] → pd.columns out = ["a"; "b"]) ∧
         (∀ row, In row (pd.values out) ↔
                 In row (pd.values three_rows) ∧
                 ∃ v, In v [PFloat (FFin 1 1); PInt 1; PInt 2] ∧
                      pd.cell_eq (cell_of three_rows "a" row) v = true).
Proof.
  apply (list_condition_concatenates_matches [three_rows] 0%nat three_rows "a"
           [PFloat (FFin 1 1); PInt 1; PInt 2]).
  - reflexivity.
  - well_formed_by_evaluation.
  - simpl. auto.
  - repeat constructor.
  - right. repeat constructor.
Defined.

Lemma not_NoDup_twice {A} (x : A) (l : list A) : ¬ NoDup (x :: x :: l).
Proof. intros H. apply NoDup_cons in H as [H _]. apply H. by left. Qed.

Lemma NoDup_one_row : NoDup (pd.values one_row).
Proof. cbn. apply NoDup_singleton. Qed.

(** C3, as stated, fails: with the entry repeated in the list, the one
    matching row comes back twice. *)
Lemma list_condition_repeats_rows : ¬ list_condition_deduplicates.
Proof.
  intros H.
  apply (not_NoDup_twice [pd.CInt 1; pd.CInt 2] []).
  apply (H [one_row] 0%nat one_row "a" [PInt 1; PInt 1]
           (pd.mkDataFrame ["a"; "b"] [[pd.CInt 1; pd.CInt 2]; [pd.CInt 1; pd.CInt 2]])).
  - reflexivity.
  - apply well_formed_sample.
  - apply NoDup_one_row.
  - cbn. auto.
  - repeat constructor.
  - eexists _, _. split; [vm_compute; reflexivity|reflexivity].
Qed.

(** ** The Row Filter *)

(** C1, as amended: given a list of Conditions, [df_filter] evaluates each
    of them on the original table and returns the matches of the first,
    followed by the matches of the second, and so on; nothing is
    deduplicated, so a row comes back once for every Condition it meets. *)
Theorem df_filter_list_concatenates
    (h : heap) (df : ref) (t : pd.DataFrame) (conditions : list pyval)
    (matches : list pd.DataFrame) :
  h !! df = Some t → well_formed t →
  Forall2 (λ condition m, returns (__df_filter df condition) h m) conditions matches →
  ∃ out, returns (df_filter df (PList conditions)) h out ∧
         pd.values out = concat (map pd.values matches).
Proof.
  intros Hdf Hwf Hall.
  assert (Hsem : Forall2 (λ c m, Sem.filter t c = Ret m) conditions matches).
  { eapply Forall2_impl; [exact Hall|]. intros c m Hret. cbn in Hret.
    eapply returns_evals; [exact Hret|]. apply (filter_refines 0); [done|lia]. }
  destruct (union_loop_concat t conditions matches pd.empty_frame Hwf
              (narrower_empty t) Hsem) as (out & Hrun & Hv & _).
  exists out. split; [|done].
  apply (evals_returns (length h)). rewrite <- Hrun.
  by apply (df_filter_refines df (PList conditions) h t).
Qed.

Lemma df_filter_list_concatenates_witness :
  ∃ out, returns (df_filter 0%nat (PList [PDict [("a", PInt 1)]; PDict [("b", PInt 2)]]))
                 [one_row] out ∧
         pd.values out = [[pd.CInt 1; pd.CInt 2]; [pd.CInt 1; pd.CInt 2]].
Proof.
  apply (df_filter_list_concatenates [one_row] 0%nat one_row
           [PDict [("a", PInt 1)]; PDict [("b", PInt 2)]] [one_row; one_row]).
  - reflexivity.
  - well_formed_by_evaluation.
  - repeat constructor; (eexists _, _; split; [vm_compute; reflexivity|reflexivity]).
Defined.

(** C1, as stated, fails: the single row of the table meets both
    Conditions and is returned twice. *)
Lemma df_filter_list_repeats_rows : ¬ row_filter_deduplicates.
Proof.
  intros H.
  apply (not_NoDup_twice [pd.CInt 1; pd.CInt 2] []).
  apply (H [one_row] 0%nat one_row [PDict [("a", PInt 1)]; PDict [("b", PInt 2)]]
           (pd.mkDataFrame ["a"; "b"] [[pd.CInt 1; pd.CInt 2]; [pd.CInt 1; pd.CInt 2]])).
  - reflexivity.
  - apply well_formed_sample.
  - apply NoDup_one_row.
  - eexists _, _. split; [vm_compute; reflexivity|reflexivity].
Qed.

(** ** The Condition Evaluator: unsupported specs and absent columns *)

Lemma keeps_columns_supported (v : pyval) : keeps_columns v = true → supported v = true.
Proof. destruct v as [| | | | |[|e l]|]; done. Qed.

Lemma py_iter_dict (d : dict) : py_iter (PDict d) = Ret (map PStr (map fst d)).
Proof. cbn. by rewrite map_map. Qed.

Lemma narrow_unsupported (cur : pd.DataFrame) (condition value : pyval) :
  type_in value [TStr; TInt; TNone; TList] = false →
  Sem.narrow cur condition value = Raise (Exception "Unexpected condition value format").
Proof. by destruct value. Qed.

(** C4, as amended: when the loop of the Condition Evaluator reaches a
    key whose column is present and whose spec is of a class other than
    [str], [int], [NoneType] and [list] (a dict, a boolean, a float), it
    raises [Exception("Unexpected condition value format")]; [df_filter]
    and [prepare_object] let the exception through.  The key is reached
    when every key before it names a column of the table and has a string,
    integer or [None] spec or a non-empty list of scalars. *)
Theorem unsupported_value_raises
    (h : heap) (df : ref) (t : pd.DataFrame) (d : dict)
    (pre post : list string) (k : string) (v : pyval) :
  h !! df = Some t → well_formed t →
  map fst d = pre ++ k :: post →
  (∀ k', In k' pre → In k' (pd.columns t) ∧
         ∃ v', dict_get d k' = Some v' ∧ keeps_columns v' = true) →
  In k (pd.columns t) → dict_get d k = Some v →
  type_in v [TStr; TInt; TNone; TList] = false →
  raises (__df_filter df (PDict d)) h (Exception "Unexpected condition value format") ∧
  raises (df_filter df (PDict d)) h (Exception "Unexpected condition value format") ∧
  (∀ config, valid_config config = Ret true →
             dict_get config "conditions" = Some (PDict d) →
             raises (prepare_object df config) h
                    (Exception "Unexpected condition value format")).
Proof.
  intros Hdf Hwf Hkeys Hpre Hin Hget Hty.
  assert (Hsem : Sem.filter t (PDict d) =
                 Raise (Exception "Unexpected condition value format")).
  { unfold Sem.filter. rewrite py_iter_dict, Hkeys.
    cbn [mbind outcome_mbind outcome_bind].
    destruct (filter_loop_prefix d pre t Hwf) as (f & _ & Hrun & Hcols).
    { intros k' Hk'. destruct (Hpre k' Hk') as (_ & v' & Hv' & Hk).
      exists v'. split; [done|]. by apply keeps_columns_supported. }
    rewrite Hrun. cbn [map Sem.filter_loop Sem.has_column].
    assert (Hhas : pd.has_column f k = true).
    { apply has_column_In. by rewrite (Hcols Hpre). }
    rewrite Hhas. cbn [mbind outcome_mbind outcome_bind negb].
    rewrite (dict_getitem_Some _ _ _ Hget). cbn [mbind outcome_mbind outcome_bind].
    by rewrite (narrow_unsupported f (PStr k) v Hty). }
  assert (Houter : raises (df_filter df (PDict d)) h
                          (Exception "Unexpected condition value format")).
  { apply (evals_raises (length h)). rewrite <- Hsem.
    by apply (df_filter_refines df (PDict d) h t). }
  split; [|split; [done|]].
  - apply (evals_raises 0). rewrite <- Hsem. apply filter_refines; [done|lia].
  - intros config Hvalid Hconds. destruct Houter as (h' & Hrun). exists h'.
    unfold prepare_object. rewrite bind_run, lift_run, Hvalid. cbn [negb].
    unfold dict_getitem. rewrite Hconds. by rewrite bind_run, lift_run, bind_run, Hrun.
Qed.

Lemma unsupported_value_raises_witness :
  raises (__df_filter 0%nat (PDict [("a", PInt 1); ("b", PDict [("x", PInt 1)])]))
         [one_row] (Exception "Unexpected condition value format") ∧
  raises (df_filter 0%nat (PDict [("a", PInt 1); ("b", PDict [("x", PInt 1)])]))
         [one_row] (Exception "Unexpected condition value format") ∧
  (∀ config, valid_config config = Ret true →
             dict_get config "conditions" =
               Some (PDict [("a", PInt 1); ("b", PDict [("x", PInt 1)])]) →
             raises (prepare_object 0%nat config) [one_row]
                    (Exception "Unexpected condition value format")).
Proof.
  apply (unsupported_value_raises [one_row] 0%nat one_row
           [("a", PInt 1); ("b", PDict [("x", PInt 1)])] ["a"] [] "b"
           (PDict [("x", PInt 1)])).
  - reflexivity.
  - well_formed_by_evaluation.
  - reflexivity.
  - intros k' [<-|[]]. split; [simpl; auto|]. exists (PInt 1). split; reflexivity.
  - simpl. auto.
  - reflexivity.
  - reflexivity.
Defined.

(** C4, as stated, fails: when the key with the dict-valued spec names a
    column the table lacks, the evaluator returns [pd.DataFrame()] and
    raises nothing. *)
Lemma unsupported_value_on_absent_column : ¬ unsupported_shape_always_raises.
Proof.
  intros H.
  destruct (H [one_row] 0%nat one_row [("z", PDict [("x", PInt 1)])] "z"
              (PDict [("x", PInt 1)])) as (h' & Hrun); try done.
  apply well_formed_sample.
Qed.

(** C8, as amended: when a key of the Condition names a column the table
    lacks and every key before it has a spec the loop accepts (a string,
    an integer, [None] or a list of scalars), the Condition Evaluator
    returns the empty table [pd.DataFrame()] and raises nothing, whatever
    the keys after it. *)
Theorem absent_column_gives_empty
    (h : heap) (df : ref) (t : pd.DataFrame) (d : dict)
    (pre post : list string) (k : string) :
  h !! df = Some t → well_formed t →
  map fst d = pre ++ k :: post →
  ¬ In k (pd.columns t) →
  (∀ k', In k' pre → ∃ v', dict_get d k' = Some v' ∧ supported v' = true) →
  returns (__df_filter df (PDict d)) h pd.empty_frame.
Proof.
  intros Hdf Hwf Hkeys Hnot Hpre.
  apply (evals_returns 0).
  replace (Ret pd.empty_frame) with (Sem.filter t (PDict d)).
  { apply filter_refines; [done|lia]. }
  unfold Sem.filter. rewrite py_iter_dict, Hkeys.
  cbn [mbind outcome_mbind outcome_bind].
  destruct (filter_loop_prefix d pre t Hwf Hpre) as (f & (_ & Hcols & _) & Hrun & _).
  rewrite Hrun. cbn [map Sem.filter_loop Sem.has_column].
  assert (Hhas : pd.has_column f k = false).
  { apply not_true_is_false. rewrite has_column_In.
    destruct Hcols as [->| ->]; [done|]. by intros []. }
  by rewrite Hhas.
Qed.

Lemma absent_column_gives_empty_witness :
  returns (__df_filter 0%nat (PDict [("a", PInt 1); ("z", PInt 7); ("b", PBool true)]))
          [one_row] pd.empty_frame.
Proof.
  apply (absent_column_gives_empty [one_row] 0%nat one_row
           [("a", PInt 1); ("z", PInt 7); ("b", PBool true)] ["a"] ["b"] "z").
  - reflexivity.
  - well_formed_by_evaluation.
  - reflexivity.
  - simpl. intros [H|[H|[]]]; discriminate H.
  - intros k' [<-|[]]. exists (PInt 1). split; reflexivity.
Defined.

(** C8, as stated, fails: a dict-valued spec on a column that is present,
    placed before the key of the absent column, makes the evaluator raise. *)
Lemma absent_column_after_unsupported_value : ¬ absent_column_always_empty.
Proof.
  intros H.
  destruct (H [one_row] 0%nat one_row [("a", PDict [("x", PInt 1)]); ("z", PInt 1)] "z")
    as (r & h' & Hrun & _); try done.
  - apply well_formed_sample.
  - cbn. auto.
  - cbn. intros [H'|[H'|[]]]; discriminate H'.
Qed.

(** ** The Config Validator *)

Lemma dict_get_In (d : dict) (k : string) :
  In k (map fst d) → ∃ v, dict_get d k = Some v.
Proof.
  induction d as [|[k' v'] d IH]; [done|]. cbn. intros [->|H].
  - rewrite String.eqb_refl. eauto.
  - destruct (String.eqb k' k); eauto.
Qed.

Lemma dict_get_key (d : dict) (k : string) (v : pyval) :
  dict_get d k = Some v → In k (map fst d).
Proof.
  induction d as [|[k' v'] d IH]; [done|]. cbn.
  destruct (String.eqb_spec k' k) as [->|_]; [by left|]. intros H. right. by apply IH.
Qed.

Lemma forallb_false {A} (f : A → bool) (l : list A) :
  forallb f l = false ↔ ∃ x, In x l ∧ f x = false.
Proof.
  induction l as [|a l IH]; cbn.
  - split; [done|by intros (? & [] & _)].
  - rewrite andb_false_iff, IH. split.
    + intros [H|(x & Hx & Hf)]; [exists a; auto|exists x; auto].
    + intros (x & [->|Hx] & Hf); [by left|right; eauto].
Qed.

(** Over the keys of a dict the loop stops at the first value that is
    neither a [str] nor a [list]. *)
Lemma valid_config_loop_dict (d : dict) (ks : list string) :
  (∀ k, In k ks → In k (map fst d)) →
  valid_config_loop (PDict d) (map PStr ks) =
  Ret (forallb (λ k, match dict_get d k with
                     | Some v => type_in v [TStr; TList]
                     | None => true
                     end) ks).
Proof.
  induction ks as [|k ks IH]; intros Hks; [done|].
  cbn [map valid_config_loop forallb].
  destruct (dict_get_In d k (Hks k (or_introl eq_refl))) as (v & Hv).
  rewrite (dict_getitem_Some _ _ _ Hv), Hv. cbn [mbind outcome_mbind outcome_bind].
  destruct (type_in v [TStr; TList]); cbn [negb andb]; [|done].
  apply IH. intros k' Hk'. apply Hks. by right.
Qed.

Lemma valid_config_dict (config d : dict) :
  dict_get config "mapping" = Some (PDict d) →
  valid_config config =
  Ret (match dict_get config "conditions" with
       | Some _ => forallb (λ k, match dict_get d k with
                                 | Some v => type_in v [TStr; TList]
                                 | None => true
                                 end) (map fst d)
       | None => false
       end).
Proof.
  intros Hm. unfold valid_config, dict_contains, dict_getitem. rewrite Hm.
  destruct (dict_get config "conditions"); [|done]. cbn [negb mbind outcome_mbind outcome_bind].
  rewrite py_iter_dict. cbn [outcome_bind]. by apply valid_config_loop_dict.
Qed.

(** C2, as amended: for a config whose ['mapping'], when present, is a
    dict, [valid_config] returns normally, and it returns [False] exactly
    when ['conditions'] is absent, or ['mapping'] is absent, or the value
    of some mapping entry is of a class other than [str] and [list].  The
    elements of a list value are not looked at. *)
Theorem valid_config_false_iff (config : dict) :
  (∀ m, dict_get config "mapping" = Some m → py_type m = TDict) →
  (valid_config config = Ret false ∨ valid_config config = Ret true) ∧
  (valid_config config = Ret false ↔
   dict_get config "conditions" = None ∨
   dict_get config "mapping" = None ∨
   ∃ d k v, dict_get config "mapping" = Some (PDict d) ∧
            dict_get d k = Some v ∧ type_in v [TStr; TList] = false).
Proof.
  intros Hdict. destruct (dict_get config "mapping") as [m|] eqn:Hm.
  - pose proof (Hdict m eq_refl) as Hty. destruct m as [| | | | | |d]; try done.
    rewrite (valid_config_dict config d Hm).
    destruct (dict_get config "conditions") as [c|]; [|split; [auto|split; [auto|done]]].
    set (ok := λ k, match dict_get d k with
                    | Some v => type_in v [TStr; TList]
                    | None => true
                    end).
    split; [destruct (forallb ok (map fst d)); auto|]. split.
    + intros [= Hall]. right. right.
      destruct (forallb ok (map fst d)) eqn:E; [done|].
      apply forallb_false in E as (k & Hk & Hbad). unfold ok in Hbad.
      destruct (dict_get d k) as [v|] eqn:Hv; [|done]. by exists d, k, v.
    + intros [?|[?|(d' & k & v & [= <-] & Hv & Hbad)]]; [done..|].
      f_equal. apply forallb_false. exists k. split; [by eapply dict_get_key|].
      unfold ok. by rewrite Hv.
  - split; [left|split; [auto|intros _]];
      unfold valid_config, dict_contains; rewrite Hm;
      by destruct (dict_get config "conditions").
Qed.

Lemma valid_config_false_iff_witness :
  (valid_config invalid_mapping_config = Ret false ∨
   valid_config invalid_mapping_config = Ret true) ∧
  (valid_config invalid_mapping_config = Ret false ↔
   dict_get invalid_mapping_config "conditions" = None ∨
   dict_get invalid_mapping_config "mapping" = None ∨
   ∃ d k v, dict_get invalid_mapping_config "mapping" = Some (PDict d) ∧
            dict_get d k = Some v ∧ type_in v [TStr; TList] = false).
Proof.
  apply (valid_config_false_iff invalid_mapping_config).
  intros m H. vm_compute in H. injection H as <-. reflexivity.
Defined.

(** C2, as stated, fails: a mapping value that is a list holding an
    integer passes the validator. *)
Lemma valid_config_accepts_list_of_int : ¬ validator_inspects_list_elements.
Proof.
  intros H.
  destruct (H [("conditions", PStr "*"); ("mapping", PDict [("a", PList [PInt 1])])])
    as [_ Hback].
  discriminate Hback. right. right.
  exists [("a", PList [PInt 1])], "a", (PList [PInt 1]). by repeat split.
Qed.

(** ** The Field Mapper *)

(** C6: with [save_original=True] a string-valued mapping entry whose
    source column is absent makes [map_fields] raise [KeyError] (first
    run); the two sibling paths skip an absent source without error: the
    rename with [save_original=False] (second run) and a list-valued entry
    (third run). *)
Theorem map_fields_missing_source :
  map_fields 0%nat (PDict [("src", PStr "dst")]) true [one_row] =
    (Raise (KeyError (PStr "src")), [one_row]) ∧
  map_fields 0%nat (PDict [("src", PStr "dst")]) false [one_row] =
    (Ret 0%nat, [one_row]) ∧
  map_fields 0%nat (PDict [("src", PList [PStr "dst"])]) true [one_row] =
    (Ret 0%nat, [one_row]).
Proof. repeat split. Qed.

(** ** The Record Normalizer *)

(** C9: when [valid_config] returns [False], [prepare_object] returns a
    new empty frame [pd.DataFrame()]; nothing is raised and no object of
    the heap is changed. *)
Theorem invalid_config_gives_empty (h : heap) (df : ref) (config : dict) :
  valid_config config = Ret false →
  prepare_object df config h = (Ret (length h), h ++ [pd.empty_frame]) ∧
  returns (prepare_object df config) h pd.empty_frame.
Proof.
  intros Hvalid.
  assert (Hrun : prepare_object df config h = (Ret (length h), h ++ [pd.empty_frame])).
  { unfold prepare_object. by rewrite bind_run, lift_run, Hvalid. }
  split; [done|]. exists (length h), (h ++ [pd.empty_frame]).
  split; [done|apply lookup_fresh].
Qed.

Lemma invalid_config_gives_empty_witness :
  prepare_object 0%nat invalid_mapping_config [one_row] =
    (Ret 1%nat, [one_row; pd.empty_frame]) ∧
  returns (prepare_object 0%nat invalid_mapping_config) [one_row] pd.empty_frame.
Proof.
  apply (invalid_config_gives_empty [one_row] 0%nat invalid_mapping_config).
  reflexivity.
Defined.

(** C10: for a config that [valid_config] accepts and that has no
    ['extensions'] key, [prepare_object] raises [KeyError('extensions')]
    as soon as the row filter returns a non-empty frame. *)
Theorem missing_extensions_raises
    (h : heap) (df : ref) (config : dict) (conditions : pyval)
    (filtered : ref) (h' : heap) (f : pd.DataFrame) :
  valid_config config = Ret true →
  dict_get config "extensions" = None →
  dict_get config "conditions" = Some conditions →
  df_filter df conditions h = (Ret filtered, h') →
  h' !! filtered = Some f → pd.empty f = false →
  prepare_object df config h = (Raise (KeyError (PStr "extensions")), h').
Proof.
  intros Hvalid Hext Hconds Hrun Hf Hne.
  unfold prepare_object. rewrite bind_run, lift_run, Hvalid. cbn [negb].
  unfold dict_getitem. rewrite Hconds, Hext.
  rewrite bind_run, lift_run, bind_run, Hrun.
  unfold DF.empty. rewrite !bind_run, (read_run _ _ _ Hf).
  unfold mret, M_mret, M_ret. by rewrite Hne.
Qed.

Lemma missing_extensions_raises_witness :
  prepare_object 0%nat config_without_extensions [one_row] =
  (Raise (KeyError (PStr "extensions")),
   [one_row; one_row; pd.empty_frame; one_row; one_row]).
Proof.
  apply (missing_extensions_raises [one_row] 0%nat config_without_extensions
           (PDict [("a", PInt 1)]) 4%nat _ one_row).
  - reflexivity.
  - reflexivity.
  - reflexivity.
  - vm_compute. reflexivity.
  - reflexivity.
  - reflexivity.
Defined.

(** ** What a call does to the heap *)

Lemma keeps_ret {A} (n : nat) (a : A) : keeps n (mret a : M A).
Proof. intros h o h' Hn [= <- <-]. auto. Qed.

Lemma keeps_lift {A} (n : nat) (o : outcome A) : keeps n (lift o).
Proof. intros h o' h' Hn [= <- <-]. auto. Qed.

Lemma keeps_read (n : nat) (r : ref) : keeps n (read r).
Proof.
  intros h o h' Hn. unfold read. destruct (h !! r); intros [= <- <-]; auto.
Qed.

Lemma keeps_alloc (n : nat) (t : pd.DataFrame) : keeps n (alloc t).
Proof.
  intros h o h' Hn [= <- <-]. split.
  - rewrite length_app. lia.
  - intros q Hq. apply lookup_app_l. lia.
Qed.

Lemma keeps_write (n : nat) (r : ref) (t : pd.DataFrame) :
  (n ≤ r)%nat → keeps n (write r t).
Proof.
  intros Hr h o h' Hn [= <- <-]. split.
  - by rewrite length_insert.
  - intros q Hq. apply list_lookup_insert_ne. lia.
Qed.

Lemma keeps_bind {A B} (n : nat) (m : M A) (k : A → M B) :
  keeps n m → (∀ a, keeps n (k a)) → keeps n (m ≫= k).
Proof.
  intros Hm Hk h o h' Hn. rewrite bind_run.
  destruct (m h) as [[a|e|] h1] eqn:E; destruct (Hm _ _ _ Hn E) as [Hn1 Hq1].
  - intros Hrun. destruct (Hk a _ _ _ Hn1 Hrun) as [Hn2 Hq2].
    split; [done|]. intros q Hq. by rewrite Hq2, Hq1.
  - by intros [= <- <-].
  - by intros [= <- <-].
Qed.

Lemma keeps_for_each {A} (n : nat) (xs : list A) (body : A → M unit) :
  (∀ x, keeps n (body x)) → keeps n (for_each xs body).
Proof.
  intros Hbody. induction xs as [|x xs IH]; [apply keeps_ret|].
  cbn [for_each]. apply keeps_bind; [apply Hbody|by intros _].
Qed.

Lemma keeps_has_column (n : nat) (df : ref) (label : pyval) :
  keeps n (DF.has_column df label).
Proof.
  apply keeps_bind; [apply keeps_read|]. intros t.
  destruct label; first [apply keeps_ret|apply (keeps_lift n (Raise TypeError))].
Qed.

Lemma keeps_getitem (n : nat) (df : ref) (label : pyval) :
  keeps n (DF.getitem df label).
Proof.
  apply keeps_bind; [apply keeps_read|]. intros t.
  destruct label; first [apply keeps_lift|apply (keeps_lift n (Raise _))].
Qed.

Lemma keeps_setitem (n : nat) (df : ref) (label : pyval) (s : pd.Series) :
  (n ≤ df)%nat → keeps n (DF.setitem df label s).
Proof.
  intros Hdf. apply keeps_bind; [apply keeps_read|]. intros t.
  destruct label; try apply keeps_lift.
  apply keeps_bind; [apply keeps_lift|]. intros t'. by apply keeps_write.
Qed.

Lemma keeps_setitem_scalar (n : nat) (df : ref) (label v : pyval) :
  (n ≤ df)%nat → keeps n (DF.setitem_scalar df label v).
Proof.
  intros Hdf. apply keeps_bind; [apply keeps_read|]. intros t.
  destruct (pd.to_cell v); [by apply keeps_setitem|apply keeps_lift].
Qed.

Lemma keeps_rename_inplace (n : nat) (df : ref) (m : dict) :
  (n ≤ df)%nat → keeps n (DF.rename_inplace df m).
Proof.
  intros Hdf. apply keeps_bind; [apply keeps_read|]. intros t.
  apply keeps_bind; [apply keeps_lift|]. intros cols. by apply keeps_write.
Qed.

Lemma keeps_delitem (n : nat) (df : ref) (label : string) :
  (n ≤ df)%nat → keeps n (DF.delitem df label).
Proof.
  intros Hdf. apply keeps_bind; [apply keeps_read|]. intros t.
  apply keeps_bind; [apply keeps_lift|]. intros t'. by apply keeps_write.
Qed.

(** [map_fields] writes to the object it is given and to no other. *)
Lemma keeps_map_fields (n : nat) (df : ref) (mapping : pyval) (save_original : bool) :
  (n ≤ df)%nat → keeps n (map_fields df mapping save_original).
Proof.
  intros Hdf. unfold map_fields.
  apply keeps_bind; [apply keeps_lift|]. intros items.
  apply keeps_bind.
  { destruct save_original; [|by apply keeps_rename_inplace].
    apply keeps_for_each. intros key.
    apply keeps_bind; [apply keeps_lift|]. intros value.
    apply keeps_bind; [apply keeps_getitem|]. intros col. by apply keeps_setitem. }
  intros _. apply keeps_bind; [|intros _; apply keeps_ret].
  apply keeps_for_each. intros key.
  apply keeps_bind; [apply keeps_has_column|]. intros present.
  destruct present; cbn [negb]; [|apply keeps_ret].
  apply keeps_bind; [apply keeps_lift|]. intros values.
  apply keeps_bind; [apply keeps_lift|]. intros entries.
  apply keeps_bind.
  { apply keeps_for_each. intros value.
    apply keeps_bind; [apply keeps_getitem|]. intros col. by apply keeps_setitem. }
  intros _. destruct save_original; cbn [negb]; [apply keeps_ret|by apply keeps_delitem].
Qed.

Lemma keeps_elim {A} (n : nat) (m : M A) (h : heap) (o : outcome A) (h' : heap) (q : ref) :
  keeps n m → (n ≤ length h)%nat → m h = (o, h') → (q < n)%nat → h' !! q = h !! q.
Proof. intros Hm Hn Hrun Hq. by apply (Hm h o h' Hn Hrun). Qed.

Lemma prefix_preserved (h h' : heap) : h `prefix_of` h' → preserved h h'.
Proof. intros Hp q t Hq. by eapply prefix_lookup_Some. Qed.

Lemma preserved_refl (h : heap) : preserved h h.
Proof. by intros q t Hq. Qed.

Lemma evals_run (n : nat) (m : M ref) (h : heap) (o : outcome pd.DataFrame)
    (o' : outcome ref) (h' : heap) :
  evals n m h o → m h = (o', h') →
  h `prefix_of` h' ∧ ∀ r, o' = Ret r → (n ≤ r)%nat ∧ (r < length h')%nat.
Proof.
  intros (h1 & Hp & Ho) Hrun. destruct o as [t|e|].
  - destruct Ho as (r & Hm & Hr & Hn). rewrite Hm in Hrun. injection Hrun as <- <-.
    split; [done|]. intros r' [= <-]. split; [done|]. by eapply lookup_lt_Some.
  - rewrite Ho in Hrun. injection Hrun as <- <-. by split.
  - rewrite Ho in Hrun. injection Hrun as <- <-. by split.
Qed.

(** C7, as amended: [valid_config] takes no table; [df_filter] and
    [prepare_object] work on copies, so that after the call every object
    that existed before it, the caller's table among them, holds the frame
    it held; [map_fields] returns the very object it was given, whose
    columns it renames, adds and deletes in place. *)
Theorem filter_and_normalizer_leave_input (h : heap) (df : ref) (t : pd.DataFrame) :
  h !! df = Some t →
  (∀ conditions o h', df_filter df conditions h = (o, h') →
                      preserved h h' ∧ h' !! df = Some t) ∧
  (∀ config o h', prepare_object df config h = (o, h') →
                  preserved h h' ∧ h' !! df = Some t) ∧
  (∀ config o h', lift (valid_config config) h = (o, h') → h' = h) ∧
  (∀ mapping save_original r h',
     map_fields df mapping save_original h = (Ret r, h') → r = df).
Proof.
  intros Hdf.
  assert (Hfilter : ∀ conditions o h', df_filter df conditions h = (o, h') →
            h `prefix_of` h' ∧ ∀ r, o = Ret r → (length h ≤ r)%nat ∧ (r < length h')%nat).
  { intros conditions o h'. apply evals_run with (o := Sem.df_filter t conditions).
    by apply df_filter_refines. }
  split; [|split; [|split]].
  - intros conditions o h' Hrun. destruct (Hfilter _ _ _ Hrun) as [Hp _].
    split; [by apply prefix_preserved|by eapply prefix_lookup_Some].
  - intros config o h' Hrun.
    cut (preserved h h'); [intros Hpres; split; [done|by apply Hpres]|].
    unfold prepare_object in Hrun. rewrite bind_run, lift_run in Hrun.
    destruct (valid_config config) as [[|]| |]; cbn [negb] in Hrun.
    + rewrite bind_run, lift_run in Hrun.
      destruct (dict_getitem config "conditions") as [conditions| |].
      * rewrite bind_run in Hrun.
        destruct (df_filter df conditions h) as [[filtered| |] h1] eqn:Efilter;
          destruct (Hfilter _ _ _ Efilter) as [Hp Hfresh].
        -- destruct (Hfresh filtered eq_refl) as [Hge _].
           assert (Hge1 : (length h ≤ length h1)%nat) by (by apply prefix_length).
           intros q t' Hq.
           assert (Hlt : (q < length h)%nat) by (by eapply lookup_lt_Some).
           rewrite <- (prefix_lookup_Some _ _ _ _ Hq Hp).
           refine (keeps_elim (length h) _ h1 o h' q _ Hge1 Hrun Hlt).
           apply keeps_bind; [apply keeps_bind; [apply keeps_read|intros; apply keeps_ret]|].
           intros no_rows. destruct no_rows; [apply keeps_ret|].
           apply keeps_bind; [apply keeps_lift|]. intros extensions.
           apply keeps_bind; [apply keeps_lift|]. intros keys.
           apply keeps_bind.
           { apply keeps_for_each. intros key.
             apply keeps_bind; [apply keeps_lift|]. intros v.
             by apply keeps_setitem_scalar. }
           intros _. apply keeps_bind; [apply keeps_lift|]. intros mapping.
           apply keeps_bind; [by apply keeps_map_fields|]. intros mapped.
           apply keeps_bind; [|intros stringified].
           ++ apply keeps_bind; [apply keeps_read|intros; apply keeps_alloc].
           ++ apply keeps_bind; [apply keeps_read|intros; apply keeps_alloc].
        -- injection Hrun as <- <-. by apply prefix_preserved.
        -- injection Hrun as <- <-. by apply prefix_preserved.
      * injection Hrun as <- <-. apply preserved_refl.
      * injection Hrun as <- <-. apply preserved_refl.
    + injection Hrun as <- <-. apply prefix_preserved. by apply prefix_app_r.
    + injection Hrun as <- <-. apply preserved_refl.
    + injection Hrun as <- <-. apply preserved_refl.
  - by intros config o h' [= <- <-].
  - intros mapping save_original r h'. unfold map_fields.
    rewrite bind_run, lift_run. destruct (py_items mapping) as [items| |]; [|done..].
    rewrite bind_run.
    match goal with |- context [match ?m h with _ => _ end] =>
      destruct (m h) as [[[]| |] h1]; [|done..]
    end.
    rewrite bind_run.
    match goal with |- context [match ?m h1 with _ => _ end] =>
      destruct (m h1) as [[[]| |] h2]; [|done..]
    end.
    by intros [= <- <-].
Qed.

(** C7, as stated, fails: after [map_fields] has renamed column [a], the
    caller's dataframe no longer holds the frame it held. *)
Lemma map_fields_renames_in_place : ¬ map_fields_leaves_input.
Proof.
  intros H.
  pose proof (H [one_row] 0%nat one_row (PDict [("a", PStr "x")]) false
                (Ret 0%nat) [pd.mkDataFrame ["x"; "b"] [[pd.CInt 1; pd.CInt 2]]]
                eq_refl eq_refl) as Hsame.
  discriminate Hsame.
Qed.

Lemma filter_and_normalizer_leave_input_witness :
  (∀ conditions o h', df_filter 0%nat conditions [one_row] = (o, h') →
                      preserved [one_row] h' ∧ h' !! 0%nat = Some one_row) ∧
  (∀ config o h', prepare_object 0%nat config [one_row] = (o, h') →
                  preserved [one_row] h' ∧ h' !! 0%nat = Some one_row) ∧
  (∀ config o h', lift (valid_config config) [one_row] = (o, h') → h' = [one_row]) ∧
  (∀ mapping save_original r h',
     map_fields 0%nat mapping save_original [one_row] = (Ret r, h') → r = 0%nat).
Proof.
  apply (filter_and_normalizer_leave_input [one_row] 0%nat one_row).
  reflexivity.
Defined.

(** ** Further properties of the Row Filter *)

Lemma run_frame (n : nat) (m : M ref) (h : heap) (o : outcome pd.DataFrame)
    (r : ref) (h' : heap) :
  evals n m h o → m h = (Ret r, h') →
  ∃ f, o = Ret f ∧ h' !! r = Some f ∧ (n ≤ r)%nat ∧ h `prefix_of` h'.
Proof.
  intros (h1 & Hp & Ho) Hrun. destruct o as [f|e|]; [|congruence..].
  destruct Ho as (r' & Hm & Hr & Hn). rewrite Hm in Hrun. injection Hrun as <- <-.
  by exists f.
Qed.

Lemma union_loop_shape (t : pd.DataFrame) (conditions : list pyval) :
  ∀ acc out, Sem.union_loop t conditions acc = Ret out →
    well_formed t → narrower acc t → narrower out t.
Proof.
  induction conditions as [|c rest IH]; intros acc out Hrun Ht Hacc.
  - by injection Hrun as <-.
  - cbn [Sem.union_loop] in Hrun.
    destruct (Sem.filter t c) as [m| |] eqn:Em; [|done..].
    cbn [mbind outcome_mbind outcome_bind] in Hrun.
    destruct (append_narrower t acc m Hacc (filter_shape _ _ _ Em Ht))
      as (acc' & Happ & _ & Hacc').
    rewrite Happ in Hrun. cbn [mbind outcome_mbind outcome_bind] in Hrun.
    by eapply IH.
Qed.

Lemma df_filter_shape (t : pd.DataFrame) (conditions : pyval) (out : pd.DataFrame) :
  Sem.df_filter t conditions = Ret out → well_formed t → narrower out t.
Proof.
  unfold Sem.df_filter. intros Hrun Ht.
  destruct (pytype_eqb (py_type conditions) TStr && py_eq_str conditions "*").
  { injection Hrun as <-. by apply narrower_refl. }
  destruct (pytype_eqb (py_type conditions) TDict); [by eapply filter_shape|].
  destruct (pytype_eqb (py_type conditions) TList).
  - destruct (py_iter conditions) as [entries| |]; [|done..].
    eapply union_loop_shape; eauto using narrower_empty.
  - injection Hrun as <-. apply narrower_empty.
Qed.

(** X1: the filter never makes up data.  Whatever the conditions, a frame
    returned by [__df_filter] or [df_filter] for a well-formed table is
    well formed, consists of rows of that table, and is over the columns of
    the table unless it is [pd.DataFrame()]. *)
Theorem filter_returns_rows_of_table
    (h : heap) (df : ref) (t : pd.DataFrame) (conditions : pyval) (out : pd.DataFrame) :
  h !! df = Some t → well_formed t →
  returns (__df_filter df conditions) h out ∨ returns (df_filter df conditions) h out →
  well_formed out ∧
  (pd.columns out = pd.columns t ∨ out = pd.empty_frame) ∧
  (∀ row, In row (pd.values out) → In row (pd.values t)).
Proof.
  intros Hdf Hwf [Hret|Hret].
  - apply (filter_shape t conditions out); [|done].
    eapply returns_evals; [exact Hret|]. apply (filter_refines 0); [done|lia].
  - apply (df_filter_shape t conditions out); [|done].
    eapply returns_evals; [exact Hret|]. by apply df_filter_refines.
Qed.

Lemma filter_returns_rows_of_table_witness :
  well_formed (pd.mkDataFrame ["a"; "b"] [[pd.CInt 2; pd.CNone]]) ∧
  (["a"; "b"] = pd.columns three_rows ∨
   pd.mkDataFrame ["a"; "b"] [[pd.CInt 2; pd.CNone]] = pd.empty_frame) ∧
  (∀ row, In row [[pd.CInt 2; pd.CNone]] → In row (pd.values three_rows)).
Proof.
  apply (filter_returns_rows_of_table [three_rows] 0%nat three_rows
           (PList [PDict [("a", PInt 2)]; PDict [("b", PStr "z")]])).
  - reflexivity.
  - well_formed_by_evaluation.
  - right. eexists _, _. split; [vm_compute; reflexivity|reflexivity].
Defined.

(** X2: [df_filter] always hands back a new object.  The reference it
    returns was not allocated before the call, so it differs from the
    caller's table, and every object that existed before the call is
    unchanged; with the wildcard ["*"] the new object holds the whole
    table. *)
Theorem df_filter_returns_fresh_object
    (h : heap) (df : ref) (t : pd.DataFrame) (conditions : pyval) (r : ref) (h' : heap) :
  h !! df = Some t →
  df_filter df conditions h = (Ret r, h') →
  (length h ≤ r)%nat ∧ r ≠ df ∧ h `prefix_of` h' ∧
  (conditions = PStr "*" → h' !! r = Some t).
Proof.
  intros Hdf Hrun.
  destruct (run_frame _ _ _ _ _ _ (df_filter_refines df conditions h t Hdf) Hrun)
    as (f & Hsem & Hr & Hn & Hp).
  split; [done|]. split; [|split; [done|]].
  - apply lookup_lt_Some in Hdf. lia.
  - intros ->. cbn in Hsem. by injection Hsem as <-.
Qed.

Lemma df_filter_returns_fresh_object_witness :
  (length [one_row] ≤ 1)%nat ∧ 1%nat ≠ 0%nat ∧
  [one_row] `prefix_of` [one_row; one_row; pd.empty_frame] ∧
  (PStr "*" = PStr "*" → [one_row; one_row; pd.empty_frame] !! 1%nat = Some one_row).
Proof.
  apply (df_filter_returns_fresh_object [one_row] 0%nat one_row (PStr "*") 1%nat
           [one_row; one_row; pd.empty_frame]).
  - reflexivity.
  - reflexivity.
Defined.

(** X3: the degenerate conditions.  An empty dict selects every row (the
    result is a copy of the table), while an empty list, and any value that
    is neither ["*"], a dict nor a list ([None], a number, another string),
    selects nothing: [df_filter] returns [pd.DataFrame()] and raises
    nothing. *)
Theorem df_filter_degenerate_conditions
    (h : heap) (df : ref) (t : pd.DataFrame) (conditions : pyval) :
  h !! df = Some t →
  returns (df_filter df (PDict [])) h t ∧
  returns (df_filter df (PList [])) h pd.empty_frame ∧
  (conditions ≠ PStr "*" → type_in conditions [TDict; TList] = false →
   returns (df_filter df conditions) h pd.empty_frame).
Proof.
  intros Hdf. repeat split.
  - apply (evals_returns (length h)). by apply (df_filter_refines df (PDict []) h t).
  - apply (evals_returns (length h)). by apply (df_filter_refines df (PList []) h t).
  - intros Hstar Hty. apply (evals_returns (length h)).
    replace (Ret pd.empty_frame) with (Sem.df_filter t conditions).
    { by apply df_filter_refines. }
    unfold Sem.df_filter. destruct conditions as [| | | |s| |]; try done.
    cbn. destruct (String.eqb_spec s "*") as [->|_]; done.
Qed.

Lemma df_filter_degenerate_conditions_witness :
  returns (df_filter 0%nat (PDict [])) [three_rows] three_rows ∧
  returns (df_filter 0%nat (PList [])) [three_rows] pd.empty_frame ∧
  (PStr "all" ≠ PStr "*" → type_in (PStr "all") [TDict; TList] = false →
   returns (df_filter 0%nat (PStr "all")) [three_rows] pd.empty_frame).
Proof.
  apply (df_filter_degenerate_conditions [three_rows] 0%nat three_rows (PStr "all")).
  reflexivity.
Defined.

Lemma narrow_scalar (cur : pd.DataFrame) (c : string) (v : pyval) :
  NoDup (pd.columns cur) → In c (pd.columns cur) →
  type_in v [TStr; TInt; TNone] = true →
  Sem.narrow cur (PStr c) v =
  Ret (pd.mkDataFrame (pd.columns cur)
         (List.filter (λ row, scalar_test v (cell_of cur c row)) (pd.values cur))).
Proof.
  intros Hnd Hin Hty. unfold Sem.narrow, scalar_test. rewrite Hty.
  cbn [Sem.column]. rewrite (column_present cur c Hnd Hin).
  cbn [mbind outcome_mbind outcome_bind].
  destruct (py_eq_str v "not null").
  - unfold pd.where_mask, pd.isna. by rewrite map_map, select_map_neg.
  - destruct (py_is_None v).
    + unfold pd.where_mask, pd.isna. by rewrite map_map, select_map.
    + unfold pd.Series_eq. replace (pd.is_scalar v) with true by (by destruct v).
      cbn [mbind outcome_mbind outcome_bind]. unfold pd.where_mask.
      by rewrite map_map, select_map.
Qed.

Lemma filter_filter {A} (p q : A → bool) (l : list A) :
  List.filter q (List.filter p l) = List.filter (λ x, p x && q x) l.
Proof.
  induction l as [|x l IH]; [done|]. cbn. destruct (p x); cbn; [|done].
  destruct (q x); by rewrite IH.
Qed.

(** The rounds of the loop over keys with scalar specs, on columns that
    are present: the rows passing every test, in their order. *)
Lemma filter_loop_scalars (d : dict) (items : dict) :
  ∀ cur, NoDup (pd.columns cur) →
    (∀ k v, In (k, v) items →
            In k (pd.columns cur) ∧ dict_get d k = Some v ∧
            type_in v [TStr; TInt; TNone] = true) →
    Sem.filter_loop (PDict d) (map PStr (map fst items)) cur =
    Ret (pd.mkDataFrame (pd.columns cur) (List.filter (meets cur items) (pd.values cur))).
Proof.
  induction items as [|[k v] items IH]; intros cur Hnd Hitems.
  - cbn. rewrite filter_true. by destruct cur.
  - destruct (Hitems k v (or_introl eq_refl)) as (Hin & Hget & Hty).
    cbn [map fst Sem.filter_loop Sem.has_column].
    rewrite (proj2 (has_column_In cur k) Hin).
    cbn [mbind outcome_mbind outcome_bind negb].
    rewrite (dict_getitem_Some _ _ _ Hget). cbn [mbind outcome_mbind outcome_bind].
    rewrite (narrow_scalar cur k v Hnd Hin Hty). cbn [mbind outcome_mbind outcome_bind].
    rewrite IH; [|done|].
    + cbn [pd.columns pd.values]. by rewrite filter_filter.
    + intros k' v' Hk'. apply Hitems. by right.
Qed.

Lemma dict_get_NoDup (d : dict) (k : string) (v : pyval) :
  NoDup (map fst d) → In (k, v) d → dict_get d k = Some v.
Proof.
  induction d as [|[k' v'] d IH]; [done|]. cbn. intros Hnd [[= -> ->]|Hin].
  - by rewrite String.eqb_refl.
  - apply NoDup_cons in Hnd as [Hnot Hnd].
    destruct (String.eqb_spec k' k) as [->|_]; [|by apply IH].
    exfalso. apply Hnot, list_elem_of_In, in_map_iff. by exists (k, v).
Qed.

Lemma scalar_conjunction_sem (t : pd.DataFrame) (d : dict) :
  well_formed t → NoDup (map fst d) →
  (∀ k v, In (k, v) d → In k (pd.columns t) ∧ type_in v [TStr; TInt; TNone] = true) →
  Sem.filter t (PDict d) =
  Ret (pd.mkDataFrame (pd.columns t) (List.filter (meets t d) (pd.values t))).
Proof.
  intros Hwf Hnd Hd. unfold Sem.filter. rewrite py_iter_dict.
  cbn [mbind outcome_mbind outcome_bind].
  apply filter_loop_scalars; [apply Hwf|]. intros k v Hkv.
  destruct (Hd k v Hkv). auto using dict_get_NoDup.
Qed.

(** X4: the keys of a Condition are combined with AND.  For a Condition
    whose keys all name columns of the table and whose specs are strings,
    integers or [None], the Condition Evaluator returns, over the columns of
    the table and in the order of the table, exactly the rows that pass the
    test of every key (["not null"]: the cell is present; [None]: the cell
    is missing; otherwise: the cell is [==] to the spec). *)
Theorem scalar_condition_is_conjunction
    (h : heap) (df : ref) (t : pd.DataFrame) (d : dict) :
  h !! df = Some t → well_formed t → NoDup (map fst d) →
  (∀ k v, In (k, v) d → In k (pd.columns t) ∧ type_in v [TStr; TInt; TNone] = true) →
  returns (__df_filter df (PDict d)) h
          (pd.mkDataFrame (pd.columns t) (List.filter (meets t d) (pd.values t))).
Proof.
  intros Hdf Hwf Hnd Hd. apply (evals_returns 0).
  rewrite <- (scalar_conjunction_sem t d Hwf Hnd Hd).
  apply filter_refines; [done|lia].
Qed.

Lemma scalar_condition_is_conjunction_witness :
  returns (__df_filter 0%nat (PDict [("b", PStr "not null"); ("a", PInt 1)])) [three_rows]
          (pd.mkDataFrame ["a"; "b"] [[pd.CInt 1; pd.CStr "x"]]).
Proof.
  apply (scalar_condition_is_conjunction [three_rows] 0%nat three_rows
           [("b", PStr "not null"); ("a", PInt 1)]).
  - reflexivity.
  - well_formed_by_evaluation.
  - apply (bool_decide_unpack _). reflexivity.
  - intros k v [[= <- <-]|[[= <- <-]|[]]]; (split; [simpl; auto|reflexivity]).
Defined.

Lemma filter_idem {A} (p : A → bool) (l : list A) :
  List.filter p (List.filter p l) = List.filter p l.
Proof.
  rewrite filter_filter. apply filter_ext. intros x. by destruct (p x).
Qed.

(** X5: filtering twice changes nothing.  Under the hypotheses of X4 the
    frame the Condition Evaluator returns is a fixed point: evaluating the
    same Condition on it returns it again. *)
Theorem scalar_condition_idempotent
    (h : heap) (df : ref) (t : pd.DataFrame) (d : dict) :
  h !! df = Some t → well_formed t → NoDup (map fst d) →
  (∀ k v, In (k, v) d → In k (pd.columns t) ∧ type_in v [TStr; TInt; TNone] = true) →
  ∃ out, returns (__df_filter df (PDict d)) h out ∧
         ∀ (h2 : heap) (r2 : ref), h2 !! r2 = Some out →
                                   returns (__df_filter r2 (PDict d)) h2 out.
Proof.
  intros Hdf Hwf Hnd Hd.
  set (out := pd.mkDataFrame (pd.columns t) (List.filter (meets t d) (pd.values t))).
  assert (Hsem : Sem.filter t (PDict d) = Ret out) by (by apply scalar_conjunction_sem).
  exists out. split.
  - apply (evals_returns 0). rewrite <- Hsem. apply filter_refines; [done|lia].
  - intros h2 r2 Hr2. apply (evals_returns 0).
    replace (Ret out) with (Sem.filter out (PDict d)).
    { apply filter_refines; [done|lia]. }
    rewrite scalar_conjunction_sem; [|by apply (filter_shape t (PDict d))|done|done].
    unfold out. cbn [pd.columns pd.values]. f_equal. f_equal.
    apply (filter_idem (meets t d)).
Qed.

Lemma scalar_condition_idempotent_witness :
  ∃ out, returns (__df_filter 0%nat (PDict [("a", PNone)])) [three_rows] out ∧
         ∀ (h2 : heap) (r2 : ref), h2 !! r2 = Some out →
                                   returns (__df_filter r2 (PDict [("a", PNone)])) h2 out.
Proof.
  apply (scalar_condition_idempotent [three_rows] 0%nat three_rows [("a", PNone)]).
  - reflexivity.
  - well_formed_by_evaluation.
  - apply (bool_decide_unpack _). reflexivity.
  - intros k v [[= <- <-]|[]]. split; [simpl; auto|reflexivity].
Defined.

(** X6: an empty list spec empties the frame for good.  When a key has
    the spec [[]] and the keys before it have specs the loop accepts, the
    Condition Evaluator returns [pd.DataFrame()], without rows and without
    columns, whatever the keys after it are: a later spec of unsupported
    class is never reached and raises nothing. *)
Theorem empty_list_spec_gives_empty
    (h : heap) (df : ref) (t : pd.DataFrame) (d : dict)
    (pre post : list string) (k : string) :
  h !! df = Some t → well_formed t →
  map fst d = pre ++ k :: post →
  (∀ k', In k' pre → ∃ v', dict_get d k' = Some v' ∧ supported v' = true) →
  dict_get d k = Some (PList []) →
  returns (__df_filter df (PDict d)) h pd.empty_frame.
Proof.
  intros Hdf Hwf Hkeys Hpre Hget. apply (evals_returns 0).
  replace (Ret pd.empty_frame) with (Sem.filter t (PDict d)).
  { apply filter_refines; [done|lia]. }
  unfold Sem.filter. rewrite py_iter_dict, Hkeys.
  cbn [mbind outcome_mbind outcome_bind].
  destruct (filter_loop_prefix d pre t Hwf Hpre) as (f & _ & Hrun & _).
  rewrite Hrun. cbn [map Sem.filter_loop Sem.has_column].
  destruct (pd.has_column f k); cbn [mbind outcome_mbind outcome_bind negb]; [|done].
  rewrite (dict_getitem_Some _ _ _ Hget). cbn [mbind outcome_mbind outcome_bind].
  change (Sem.narrow f (PStr k) (PList [])) with (Ret pd.empty_frame : outcome pd.DataFrame).
  cbn [mbind outcome_mbind outcome_bind]. apply filter_loop_empty.
Qed.

Lemma empty_list_spec_gives_empty_witness :
  returns (__df_filter 0%nat (PDict [("a", PList []); ("b", PDict [("x", PInt 1)])]))
          [one_row] pd.empty_frame.
Proof.
  apply (empty_list_spec_gives_empty [one_row] 0%nat one_row
           [("a", PList []); ("b", PDict [("x", PInt 1)])] [] ["b"] "a").
  - reflexivity.
  - well_formed_by_evaluation.
  - reflexivity.
  - intros k' [].
  - reflexivity.
Defined.

(** ** Further properties of the Config Validator and the Record Normalizer *)

(** X7: the validator is not total.  When ['conditions'] is present and
    ['mapping'] is [None], a boolean or a number, the loop header
    [for mapping_entry in config['mapping']] raises [TypeError];
    [prepare_object] does not catch it and leaves the heap as it was. *)
Theorem valid_config_mapping_not_iterable (config : dict) (m : pyval) :
  dict_contains config "conditions" = true →
  dict_get config "mapping" = Some m →
  type_in m [TNone; TBool; TInt; TFloat] = true →
  valid_config config = Raise TypeError ∧
  ∀ (h : heap) (df : ref), prepare_object df config h = (Raise TypeError, h).
Proof.
  intros Hc Hm Hty.
  assert (Hv : valid_config config = Raise TypeError).
  { unfold valid_config. rewrite Hc. unfold dict_contains, dict_getitem.
    rewrite Hm. cbn [negb]. by destruct m. }
  split; [done|]. intros h df. unfold prepare_object.
  by rewrite bind_run, lift_run, Hv.
Qed.

Lemma valid_config_mapping_not_iterable_witness :
  valid_config [("conditions", PStr "*"); ("mapping", PNone)] = Raise TypeError ∧
  ∀ (h : heap) (df : ref),
    prepare_object df [("conditions", PStr "*"); ("mapping", PNone)] h = (Raise TypeError, h).
Proof.
  apply (valid_config_mapping_not_iterable
           [("conditions", PStr "*"); ("mapping", PNone)] PNone); reflexivity.
Defined.

(** X8: nothing survives, nothing is done.  For a config the validator
    accepts, when the row filter returns an empty frame [prepare_object]
    returns that very object and stops: ['extensions'] is not looked up (so
    its absence raises nothing), no column is added or renamed, and the
    cells are not converted to strings. *)
Theorem empty_filter_result_returned_as_is
    (h : heap) (df : ref) (config : dict) (conditions : pyval)
    (filtered : ref) (h' : heap) (f : pd.DataFrame) :
  valid_config config = Ret true →
  dict_get config "conditions" = Some conditions →
  df_filter df conditions h = (Ret filtered, h') →
  h' !! filtered = Some f → pd.empty f = true →
  prepare_object df config h = (Ret filtered, h').
Proof.
  intros Hvalid Hconds Hrun Hf He.
  unfold prepare_object. rewrite bind_run, lift_run, Hvalid. cbn [negb].
  unfold dict_getitem. rewrite Hconds.
  rewrite bind_run, lift_run, bind_run, Hrun.
  unfold DF.empty. rewrite !bind_run, (read_run _ _ _ Hf).
  unfold mret, M_mret, M_ret. by rewrite He.
Qed.

Lemma empty_filter_result_returned_as_is_witness :
  prepare_object 0%nat
    [("conditions", PDict [("a", PInt 5)]); ("mapping", PDict [("a", PStr "A")])]
    [one_row] =
  (Ret 4%nat, [one_row; one_row; pd.empty_frame; one_row; pd.mkDataFrame ["a"; "b"] []]).
Proof.
  apply (empty_filter_result_returned_as_is [one_row] 0%nat
           [("conditions", PDict [("a", PInt 5)]); ("mapping", PDict [("a", PStr "A")])]
           (PDict [("a", PInt 5)]) 4%nat _ (pd.mkDataFrame ["a"; "b"] [])).
  - reflexivity.
  - reflexivity.
  - vm_compute. reflexivity.
  - reflexivity.
  - reflexivity.
Defined.

Lemma cell_eqb_eq (a b : pd.cell) : pd.cell_eqb a b = true ↔ a = b.
Proof.
  destruct a, b; cbn; try (split; [done|discriminate]); try done.
  - rewrite Bool.eqb_true_iff. split; [by intros ->|by intros [= ->]].
  - rewrite Z.eqb_eq. split; [by intros ->|by intros [= ->]].
  - rewrite String.eqb_eq. split; [by intros ->|by intros [= ->]].
Qed.

Lemma row_eqb_eq (a b : list pd.cell) : pd.row_eqb a b = true ↔ a = b.
Proof.
  revert b. induction a as [|x a IH]; intros [|y b]; cbn; try done.
  rewrite andb_true_iff, cell_eqb_eq, IH. split.
  - by intros [-> ->].
  - by intros [= -> ->].
Qed.

Lemma existsb_row_eqb (r : list pd.cell) (seen : list (list pd.cell)) :
  existsb (pd.row_eqb r) seen = true ↔ In r seen.
Proof.
  rewrite existsb_exists. split.
  - intros (x & Hx & E). apply row_eqb_eq in E. by subst.
  - intros H. exists r. split; [done|by apply row_eqb_eq].
Qed.

Lemma keep_first_spec (rows : list (list pd.cell)) :
  ∀ seen, NoDup (pd.keep_first seen rows) ∧
          ∀ r, In r (pd.keep_first seen rows) ↔ In r rows ∧ ¬ In r seen.
Proof.
  induction rows as [|x rows IH]; intros seen.
  - split; [constructor|]. cbn. intros r. tauto.
  - cbn [pd.keep_first]. destruct (existsb (pd.row_eqb x) seen) eqn:E.
    + apply existsb_row_eqb in E. destruct (IH seen) as [Hnd Hin].
      split; [done|]. intros r. rewrite Hin. cbn. split; [tauto|].
      intros [[->|H] Hn]; [done|tauto].
    + assert (Hx : ¬ In x seen).
      { intros H. apply existsb_row_eqb in H. congruence. }
      destruct (IH (x :: seen)) as [Hnd Hin]. split.
      * apply NoDup_cons. split; [|done]. rewrite list_elem_of_In, Hin. cbn. tauto.
      * intros r. cbn [In]. rewrite Hin. cbn [In]. split.
        -- intros [<-|[H1 H2]]; [tauto|]. tauto.
        -- intros [[<-|H] Hn]; [tauto|].
           destruct (pd.row_eqb x r) eqn:Exr.
           ++ apply row_eqb_eq in Exr. tauto.
           ++ right. split; [done|]. intros [->|?]; [|done].
              rewrite (proj2 (row_eqb_eq r r) eq_refl) in Exr. discriminate.
Qed.

Lemma applymap_str_cells (m : pd.DataFrame) :
  Forall (Forall is_str_cell) (pd.values (pd.applymap_str m)).
Proof.
  cbn [pd.applymap_str pd.values]. apply List.Forall_forall. intros row Hrow.
  apply in_map_iff in Hrow as (row0 & <- & _).
  apply List.Forall_forall. intros c Hc. apply in_map_iff in Hc as (c0 & <- & _).
  by eexists.
Qed.

Lemma empty_frame_shape (f : pd.DataFrame) :
  pd.empty f = true → pd.columns f = [] ∨ pd.values f = [].
Proof.
  unfold pd.empty. destruct (pd.columns f); [by left|].
  destruct (pd.values f); [by right|done].
Qed.

Lemma drop_duplicates_applymap_normal (m : pd.DataFrame) :
  Forall (Forall is_str_cell) (pd.values (pd.drop_duplicates (pd.applymap_str m))) ∧
  (pd.columns (pd.drop_duplicates (pd.applymap_str m)) ≠ [] →
   NoDup (pd.values (pd.drop_duplicates (pd.applymap_str m)))).
Proof.
  pose proof (applymap_str_cells m) as Hcells.
  unfold pd.drop_duplicates. destruct (pd.empty (pd.applymap_str m)) eqn:E.
  - split; [done|]. intros Hcols.
    destruct (empty_frame_shape _ E) as [H|H]; [done|]. rewrite H. constructor.
  - cbn [pd.values pd.columns].
    destruct (keep_first_spec (pd.values (pd.applymap_str m)) []) as [Hnd Hin].
    split; [|done]. apply List.Forall_forall. intros row Hrow.
    apply Hin in Hrow as [Hrow _]. revert row Hrow. by apply List.Forall_forall.
Qed.

(** An empty frame made of rows of a well-formed frame has no cell. *)
Lemma empty_narrower_no_cells (f t : pd.DataFrame) :
  narrower f t → pd.empty f = true →
  Forall (Forall is_str_cell) (pd.values f) ∧ (pd.columns f ≠ [] → pd.values f = []).
Proof.
  intros ([_ Hrows] & _ & _) He.
  destruct (empty_frame_shape f He) as [Hc|Hv].
  - split; [|done]. rewrite Hc in Hrows.
    eapply List.Forall_impl; [|exact Hrows]. intros row Hlen. cbn in Hlen.
    destruct row; [constructor|done].
  - rewrite Hv. split; [constructor|done].
Qed.

(** Splitting a run of [m ≫= k] that returned. *)
Lemma bind_returns {A B} (m : M A) (k : A → M B) (h : heap) (b : B) (h' : heap) :
  (m ≫= k) h = (Ret b, h') →
  ∃ a h1, m h = (Ret a, h1) ∧ k a h1 = (Ret b, h').
Proof.
  rewrite bind_run. destruct (m h) as [[a|e|] h1]; [|done..]. intros Hk. by exists a, h1.
Qed.

(** X9: what [prepare_object] returns is normalised.  For a well-formed
    table and any config, every cell of a frame that [prepare_object]
    returns is a string, and no two of its rows are equal provided the frame
    has at least one column.  (When the mapping deletes every column the
    rows, all without cells, are as many as the filter kept.) *)
Theorem prepare_object_output_normal_form
    (h : heap) (df : ref) (t : pd.DataFrame) (config : dict) (out : pd.DataFrame) :
  h !! df = Some t → well_formed t →
  returns (prepare_object df config) h out →
  Forall (Forall is_str_cell) (pd.values out) ∧
  (pd.columns out ≠ [] → NoDup (pd.values out)).
Proof.
  intros Hdf Hwf (r & h' & Hrun & Hr).
  unfold prepare_object in Hrun.
  apply bind_returns in Hrun as (valid & h0 & Hv & Hrun). injection Hv as Hv <-.
  destruct valid; cbn [negb] in Hrun.
  2:{ injection Hrun as <- <-. rewrite lookup_fresh in Hr. injection Hr as <-.
      split; [constructor|intros _; constructor]. }
  apply bind_returns in Hrun as (conditions & h0 & Hc & Hrun). injection Hc as Hc <-.
  apply bind_returns in Hrun as (filtered & h1 & Hfilter & Hrun).
  destruct (run_frame _ _ _ _ _ _ (df_filter_refines df conditions h t Hdf) Hfilter)
    as (f & Hsem & Hf & _ & _).
  pose proof (df_filter_shape _ _ _ Hsem Hwf) as Hshape.
  apply bind_returns in Hrun as (no_rows & h2 & He & Hrun).
  unfold DF.empty in He. rewrite bind_run, (read_run _ _ _ Hf) in He.
  injection He as <- <-.
  destruct (pd.empty f) eqn:Eempty.
  { injection Hrun as <- <-. rewrite Hf in Hr. injection Hr as <-.
    destruct (empty_narrower_no_cells f t Hshape Eempty) as [Hcells Hrows].
    split; [done|]. intros Hcols. rewrite (Hrows Hcols). constructor. }
  apply bind_returns in Hrun as (extensions & h2 & _ & Hrun).
  apply bind_returns in Hrun as (keys & h3 & _ & Hrun).
  apply bind_returns in Hrun as (u & h4 & _ & Hrun).
  apply bind_returns in Hrun as (mapping & h5 & _ & Hrun).
  apply bind_returns in Hrun as (mapped & h6 & _ & Hrun).
  apply bind_returns in Hrun as (stringified & h7 & Hs & Hrun).
  unfold DF.applymap_str in Hs. apply bind_returns in Hs as (m & h8 & Hm & Hs).
  injection Hs as <- <-.
  unfold DF.drop_duplicates in Hrun. apply bind_returns in Hrun as (s & h9 & Hread & Hrun).
  injection Hrun as <- <-. rewrite lookup_fresh in Hr. injection Hr as <-.
  unfold read in Hm, Hread.
  destruct (h6 !! mapped); [|done]. injection Hm as <- <-.
  rewrite lookup_fresh in Hread. injection Hread as <- <-.
  apply drop_duplicates_applymap_normal.
Qed.

Lemma prepare_object_output_normal_form_witness :
  Forall (Forall is_str_cell) [[pd.CStr "1"; pd.CStr "active"; pd.CStr "x"]] ∧
  (["ID"; "Status"; "source"] ≠ [] →
   NoDup [[pd.CStr "1"; pd.CStr "active"; pd.CStr "x"]]).
Proof.
  apply (prepare_object_output_normal_form [status_table] 0%nat status_table status_config
           (pd.mkDataFrame ["ID"; "Status"; "source"]
              [[pd.CStr "1"; pd.CStr "active"; pd.CStr "x"]])).
  - reflexivity.
  - well_formed_by_evaluation.
  - eexists _, _. split; [vm_compute; reflexivity|reflexivity].
Defined.

(** ** Further properties of the Field Mapper *)

Lemma write_run (r : ref) (t : pd.DataFrame) (h : heap) :
  write r t h = (Ret tt, <[r := t]> h).
Proof. reflexivity. Qed.

Lemma setitem_run (df : ref) (label : string) (s : pd.Series) (h : heap)
    (t t' : pd.DataFrame) :
  h !! df = Some t → pd.set_column t label s = Ret t' →
  DF.setitem df (PStr label) s h = (Ret tt, <[df := t']> h).
Proof.
  intros Hdf Hset. unfold DF.setitem.
  by rewrite bind_run, (read_run _ _ _ Hdf), bind_run, lift_run, Hset.
Qed.

Lemma delitem_run (df : ref) (label : string) (h : heap) (t t' : pd.DataFrame) :
  h !! df = Some t → pd.drop_column t label = Ret t' →
  DF.delitem df label h = (Ret tt, <[df := t']> h).
Proof.
  intros Hdf Hdrop. unfold DF.delitem.
  by rewrite bind_run, (read_run _ _ _ Hdf), bind_run, lift_run, Hdrop.
Qed.

Lemma rename_inplace_run (df : ref) (m : dict) (h : heap) (t : pd.DataFrame)
    (cols : list string) :
  h !! df = Some t → pd.rename_labels m (pd.columns t) = Ret cols →
  DF.rename_inplace df m h = (Ret tt, <[df := pd.mkDataFrame cols (pd.values t)]> h).
Proof.
  intros Hdf Hren. unfold DF.rename_inplace.
  by rewrite bind_run, (read_run _ _ _ Hdf), bind_run, lift_run, Hren.
Qed.

Lemma dict_get_In_item (d : dict) (k : string) (v : pyval) :
  dict_get d k = Some v → In (k, v) d.
Proof.
  induction d as [|[k' v'] d IH]; [done|]. cbn.
  destruct (String.eqb_spec k' k) as [->|_].
  - intros [= ->]. by left.
  - intros H. right. by apply IH.
Qed.

Lemma rename_labels_strings (m : dict) (cols : list string) :
  (∀ k v, In (k, v) m → In k cols → ∃ s, v = PStr s) →
  pd.rename_labels m cols = Ret (map (renamed m) cols).
Proof.
  induction cols as [|c cols IH]; intros Hm; [done|].
  cbn [pd.rename_labels map]. unfold renamed at 1.
  destruct (dict_get m c) as [v|] eqn:Hv.
  - destruct (Hm c v (dict_get_In_item _ _ _ Hv) (or_introl eq_refl)) as (s & ->).
    cbn [mbind outcome_mbind outcome_bind]. rewrite IH; [done|].
    intros k v' Hk Hin. apply (Hm k v' Hk). by right.
  - cbn [mbind outcome_mbind outcome_bind]. rewrite IH; [done|].
    intros k v' Hk Hin. apply (Hm k v' Hk). by right.
Qed.

Lemma filter_all {A} (p : A → bool) (l : list A) :
  (∀ x, In x l → p x = true) → List.filter p l = l.
Proof.
  induction l as [|x l IH]; intros H; [done|]. cbn.
  rewrite (H x (or_introl eq_refl)), IH; [done|]. intros y Hy. apply H. by right.
Qed.

Lemma filter_none {A} (p : A → bool) (l : list A) :
  (∀ x, In x l → p x = false) → List.filter p l = [].
Proof.
  induction l as [|x l IH]; intros H; [done|]. cbn.
  rewrite (H x (or_introl eq_refl)). apply IH. intros y Hy. apply H. by right.
Qed.

(** A mapping of strings only: the whole of [map_fields] is the rename. *)
Lemma map_fields_strings_run (df : ref) (m : dict) (h : heap) (t : pd.DataFrame) :
  h !! df = Some t →
  (∀ k v, In (k, v) m → ∃ s, v = PStr s) →
  map_fields df (PDict m) false h =
  (Ret df, <[df := pd.mkDataFrame (map (renamed m) (pd.columns t)) (pd.values t)]> h).
Proof.
  intros Hdf Hm. unfold map_fields.
  rewrite bind_run, lift_run. cbn [py_items].
  rewrite (filter_all (λ kv, negb (is_list (snd kv))) m).
  2:{ intros [k v] Hkv. destruct (Hm k v Hkv) as (s & ->). reflexivity. }
  rewrite (filter_none (λ kv, is_list (snd kv)) m).
  2:{ intros [k v] Hkv. destruct (Hm k v Hkv) as (s & ->). reflexivity. }
  rewrite bind_run.
  rewrite (rename_inplace_run df m h t (map (renamed m) (pd.columns t)) Hdf).
  2:{ apply rename_labels_strings. intros k v Hkv _. apply (Hm k v Hkv). }
  reflexivity.
Qed.

(** X10: renaming relabels and does nothing else.  With
    [save_original=False] and a mapping whose values are all strings,
    [map_fields] replaces, in the object it is given and all at once, the
    label of every column that is a key of the mapping by its value; the
    other labels, the order and number of the columns and every cell stay
    as they were, also when two columns receive the same label. *)
Theorem map_fields_renames_columns
    (h : heap) (df : ref) (t : pd.DataFrame) (m : dict) :
  h !! df = Some t →
  (∀ k v, In (k, v) m → ∃ s, v = PStr s) →
  ∃ h', map_fields df (PDict m) false h = (Ret df, h') ∧
        h' !! df = Some (pd.mkDataFrame (map (renamed m) (pd.columns t)) (pd.values t)) ∧
        ∀ q, q ≠ df → h' !! q = h !! q.
Proof.
  intros Hdf Hm. eexists. split; [by apply map_fields_strings_run|]. split.
  - apply list_lookup_insert_eq. by eapply lookup_lt_Some.
  - intros q Hq. by apply list_lookup_insert_ne.
Qed.

Lemma map_fields_renames_columns_witness :
  ∃ h', map_fields 0%nat (PDict [("a", PStr "b"); ("b", PStr "a")]) false [one_row] =
          (Ret 0%nat, h') ∧
        h' !! 0%nat = Some (pd.mkDataFrame ["b"; "a"] [[pd.CInt 1; pd.CInt 2]]) ∧
        ∀ q, q ≠ 0%nat → h' !! q = [one_row] !! q.
Proof.
  apply (map_fields_renames_columns [one_row] 0%nat one_row
           [("a", PStr "b"); ("b", PStr "a")]).
  - reflexivity.
  - intros k v [[= <- <-]|[[= <- <-]|[]]]; by eexists.
Defined.

Lemma for_each_skip {A} (xs : list A) (body : A → M unit) (h : heap) :
  (∀ x, In x xs → body x h = (Ret tt, h)) → for_each xs body h = (Ret tt, h).
Proof.
  induction xs as [|x xs IH]; intros Hbody; [done|].
  cbn [for_each]. rewrite bind_run, (Hbody x (or_introl eq_refl)).
  apply IH. intros y Hy. apply Hbody. by right.
Qed.

Lemma rename_labels_absent (m : dict) (cols : list string) :
  (∀ c, In c cols → dict_get m c = None) → pd.rename_labels m cols = Ret cols.
Proof.
  induction cols as [|c cols IH]; intros Hm; [done|].
  cbn [pd.rename_labels]. rewrite (Hm c (or_introl eq_refl)).
  cbn [mbind outcome_mbind outcome_bind]. rewrite IH; [done|].
  intros c' Hc'. apply Hm. by right.
Qed.

Lemma write_back (df : ref) (h : heap) (t : pd.DataFrame) :
  h !! df = Some t → <[df := pd.mkDataFrame (pd.columns t) (pd.values t)]> h = h.
Proof. intros Hdf. apply list_insert_id. by destruct t. Qed.

(** X11: sources that are absent are skipped, except on one path.  When
    no key of the mapping names a column of the frame, [map_fields] returns
    the object it was given with the heap unchanged, provided
    [save_original] is false or every value of the mapping is a list. *)
Theorem map_fields_skips_absent_sources
    (h : heap) (df : ref) (t : pd.DataFrame) (m : dict) (save_original : bool) :
  h !! df = Some t →
  (∀ k v, In (k, v) m → ¬ In k (pd.columns t)) →
  save_original = false ∨ (∀ k v, In (k, v) m → is_list v = true) →
  map_fields df (PDict m) save_original h = (Ret df, h).
Proof.
  intros Hdf Habsent Hpath. unfold map_fields.
  rewrite bind_run, lift_run. cbn [py_items]. rewrite bind_run.
  set (simple := List.filter (λ kv, negb (is_list (snd kv))) m).
  set (multi := List.filter (λ kv, is_list (snd kv)) m).
  assert (Hfirst :
    (if save_original
     then for_each (map fst simple) (λ key,
            value ← lift (dict_getitem simple key);
            col ← DF.getitem df (PStr key);
            DF.setitem df value col)
     else DF.rename_inplace df simple) h = (Ret tt, h)).
  { destruct save_original.
    - destruct Hpath as [?|Hlists]; [done|].
      unfold simple. rewrite filter_none; [done|].
      intros [k v] Hkv. cbn. by rewrite (Hlists k v Hkv).
    - rewrite (rename_inplace_run df simple h t (pd.columns t) Hdf).
      + by rewrite (write_back df h t Hdf).
      + apply rename_labels_absent. intros c Hc.
        destruct (dict_get simple c) as [v|] eqn:Hv; [|done].
        apply dict_get_In_item, filter_In in Hv as [Hv _].
        by destruct (Habsent c v Hv). }
  rewrite Hfirst. rewrite bind_run, for_each_skip; [done|].
  intros k Hk. rewrite bind_run, (has_column_run df (PStr k) h t Hdf).
  cbn [Sem.has_column].
  replace (pd.has_column t k) with false; [done|].
  symmetry. apply not_true_is_false. rewrite has_column_In.
  apply in_map_iff in Hk as ([k' v] & <- & Hkv). apply filter_In in Hkv as [Hkv _].
  by apply (Habsent k' v).
Qed.

Lemma map_fields_skips_absent_sources_witness :
  map_fields 0%nat (PDict [("x", PStr "y"); ("z", PList [PStr "u"; PStr "v"])]) false
             [one_row] = (Ret 0%nat, [one_row]).
Proof.
  apply (map_fields_skips_absent_sources [one_row] 0%nat one_row
           [("x", PStr "y"); ("z", PList [PStr "u"; PStr "v"])] false).
  - reflexivity.
  - intros k v [[= <- <-]|[[= <- <-]|[]]]; simpl; intros [H|[H|[]]]; discriminate H.
  - left. reflexivity.
Defined.

Lemma index_of_positions (k : string) (cols : list string) (i : nat) :
  NoDup cols → pd.index_of k cols = Some i →
  pd.positions k cols 0 = [i] ∧ (i < length cols)%nat ∧ In k cols.
Proof.
  intros Hnd Hi.
  assert (Hin : In k cols).
  { destruct (existsb (String.eqb k) cols) eqn:E; [by apply existsb_eqb_In|].
    unfold pd.index_of in Hi. rewrite positions_absent in Hi; [done|].
    intros H. apply existsb_eqb_In in H. congruence. }
  destruct (positions_present k cols Hnd Hin) as (j & Hj & Hlt).
  unfold pd.index_of in Hi. rewrite Hj in Hi. injection Hi as ->. done.
Qed.

Lemma positions_app_absent (k : string) (cols extra : list string) :
  ¬ In k extra → pd.positions k (cols ++ extra) 0 = pd.positions k cols 0.
Proof.
  intros H. by rewrite positions_app, (positions_absent k extra _ H), app_nil_r.
Qed.

Lemma at_col_app (i : nat) (row extra : list pd.cell) :
  (i < length row)%nat → pd.at_col i (row ++ extra) = pd.at_col i row.
Proof. intros Hi. unfold pd.at_col. by apply app_nth1. Qed.

Lemma zip_with_default_map {A B C} (f : A → B → A) (g : C → A) (c : C → B) (l : list C) :
  pd.zip_with_default f (map g l) (map c l) = map (λ x, f (g x) (c x)) l.
Proof. induction l as [|x l IH]; [done|]. cbn. by rewrite IH. Qed.

Lemma fan_out_nil (t : pd.DataFrame) (i : nat) : fan_out t i [] = t.
Proof.
  destruct t as [cols rows]. unfold fan_out. cbn. rewrite app_nil_r. f_equal.
  rewrite <- (map_id rows) at 2. apply map_ext. intros row. apply app_nil_r.
Qed.

Lemma dict_get_single_run (k : string) (v : pyval) :
  dict_getitem [(k, v)] k = Ret v.
Proof. unfold dict_getitem. by rewrite dict_get_single. Qed.

Section FanOut.

Variables (t : pd.DataFrame) (k : string) (i : nat).
Hypothesis t_well_formed : well_formed t.
Hypothesis k_at_i : pd.index_of k (pd.columns t) = Some i.

Lemma source_in_rows (row : list pd.cell) :
  In row (pd.values t) → (i < length row)%nat.
Proof.
  intros Hrow. destruct t_well_formed as [Hnd Hrows].
  destruct (index_of_positions k _ i Hnd k_at_i) as (_ & Hlt & _).
  rewrite List.Forall_forall in Hrows. by rewrite (Hrows row Hrow).
Qed.

Lemma positions_fan_out (ds : list string) :
  (∀ d, In d ds → ¬ In d (pd.columns t)) →
  pd.positions k (pd.columns t ++ ds) 0 = [i].
Proof.
  intros Hds. destruct t_well_formed as [Hnd _].
  destruct (index_of_positions k _ i Hnd k_at_i) as (Hpos & _ & Hin).
  rewrite positions_app_absent; [done|]. intros H. by apply (Hds k).
Qed.

Lemma column_fan_out (ds : list string) :
  (∀ d, In d ds → ¬ In d (pd.columns t)) →
  pd.column (fan_out t i ds) k = Ret (map (pd.at_col i) (pd.values t)).
Proof.
  intros Hds. unfold pd.column, fan_out. cbn [pd.columns pd.values].
  rewrite (positions_fan_out ds Hds), map_map. f_equal.
  apply map_ext_in. intros row Hrow. apply at_col_app. by apply source_in_rows.
Qed.

Lemma set_column_fan_out (ds : list string) (d : string) :
  ¬ In d (pd.columns t) → ¬ In d ds →
  pd.set_column (fan_out t i ds) d (map (pd.at_col i) (pd.values t)) =
  Ret (fan_out t i (ds ++ [d])).
Proof.
  intros Hd Hds. unfold pd.set_column, fan_out. cbn [pd.columns pd.values].
  rewrite positions_absent.
  2:{ intros H. apply in_app_or in H as [H|H]; tauto. }
  rewrite zip_with_default_map, <- app_assoc. do 2 f_equal.
  apply map_ext. intros row. rewrite <- app_assoc, length_app, Nat.add_1_r.
  f_equal. cbn [repeat length]. by rewrite repeat_cons.
Qed.

Lemma drop_column_fan_out (ds : list string) :
  (∀ d, In d ds → ¬ In d (pd.columns t)) →
  pd.drop_column (fan_out t i ds) k = Ret (without_column (fan_out t i ds) i).
Proof.
  intros Hds. unfold pd.drop_column. cbn [fan_out pd.columns].
  by rewrite (positions_fan_out ds Hds).
Qed.

(** The inner loop of the fan-out: one new column per destination. *)
Lemma fan_out_loop (df : ref) (ds : list string) :
  ∀ (done : list string) (h : heap),
    h !! df = Some (fan_out t i done) →
    NoDup (done ++ ds) →
    (∀ d, In d (done ++ ds) → ¬ In d (pd.columns t)) →
    for_each (map PStr ds) (λ value,
      col ← DF.getitem df (PStr k);
      DF.setitem df value col) h =
    (Ret tt, <[df := fan_out t i (done ++ ds)]> h).
Proof.
  induction ds as [|d ds IH]; intros done h Hdf Hnd Hdis.
  - cbn [map for_each]. rewrite app_nil_r. by rewrite list_insert_id.
  - cbn [map for_each]. rewrite !bind_run, (getitem_run df (PStr k) h _ Hdf).
    cbn [Sem.column]. rewrite column_fan_out.
    2:{ intros d' Hd'. apply Hdis, in_or_app. by left. }
    assert (Hd : ¬ In d (pd.columns t)).
    { apply Hdis, in_or_app. right. by left. }
    assert (Hfresh : ¬ In d done).
    { apply NoDup_app in Hnd as (_ & Hsep & _). intros H.
      apply (Hsep d); [by apply list_elem_of_In|]. by left. }
    rewrite (setitem_run df d _ h _ _ Hdf (set_column_fan_out done d Hd Hfresh)).
    rewrite (IH (done ++ [d])).
    + by rewrite list_insert_insert_eq, <- app_assoc.
    + apply list_lookup_insert_eq. by eapply lookup_lt_Some.
    + by rewrite <- app_assoc.
    + intros d' Hd'. apply Hdis. by rewrite <- app_assoc in Hd'.
Qed.

End FanOut.

(** The run of [map_fields] on a single list-valued entry. *)
Lemma map_fields_fans_out_run
    (h : heap) (df : ref) (t : pd.DataFrame) (k : string) (i : nat)
    (dests : list string) (save_original : bool) :
  h !! df = Some t → well_formed t →
  pd.index_of k (pd.columns t) = Some i →
  NoDup dests → (∀ d, In d dests → ¬ In d (pd.columns t)) →
  map_fields df (PDict [(k, PList (map PStr dests))]) save_original h =
  (Ret df, <[df := if save_original then fan_out t i dests
                   else without_column (fan_out t i dests) i]> h).
Proof.
  intros Hdf Hwf Hi Hnd Hdis.
  destruct (index_of_positions k _ i (proj1 Hwf) Hi) as (_ & _ & Hin).
  assert (Hloop : ∀ h0, h0 !! df = Some t →
    for_each (map PStr dests) (λ value,
      col ← DF.getitem df (PStr k);
      DF.setitem df value col) h0 = (Ret tt, <[df := fan_out t i dests]> h0)).
  { intros h0 Hdf0. apply (fan_out_loop t k i Hwf Hi df dests [] h0); [|done|done].
    by rewrite fan_out_nil. }
  assert (Hlt : (df < length h)%nat) by (by eapply lookup_lt_Some).
  unfold map_fields. rewrite bind_run, lift_run.
  cbn [py_items List.filter snd is_list py_type pytype_eqb negb map fst for_each].
  destruct save_original; cbn [negb].
  - rewrite !bind_run. cbn [mret M_mret M_ret]. rewrite !bind_run.
    rewrite (has_column_run df (PStr k) h t Hdf). cbn [Sem.has_column].
    rewrite (proj2 (has_column_In t k) Hin). cbn [negb].
    rewrite !bind_run, lift_run, dict_get_single_run, !bind_run, lift_run.
    cbn [py_iter]. rewrite !bind_run, (Hloop h Hdf). reflexivity.
  - rewrite !bind_run.
    rewrite (rename_inplace_run df [] h t (pd.columns t) Hdf
               (rename_labels_absent [] _ (λ _ _, eq_refl))).
    rewrite (write_back df h t Hdf). rewrite !bind_run.
    rewrite (has_column_run df (PStr k) h t Hdf). cbn [Sem.has_column].
    rewrite (proj2 (has_column_In t k) Hin). cbn [negb].
    rewrite !bind_run, lift_run, dict_get_single_run, !bind_run, lift_run.
    cbn [py_iter]. rewrite !bind_run, (Hloop h Hdf).
    rewrite (delitem_run df k _ (fan_out t i dests) _
               (list_lookup_insert_eq _ _ _ Hlt)
               (drop_column_fan_out t k i Hwf Hi dests Hdis)).
    rewrite list_insert_insert_eq. reflexivity.
Qed.

(** X12: a list-valued entry fans the source column out.  For a
    well-formed frame in which [k] is column number [i], and distinct new
    labels [dests], the entry [{k: dests}] makes [map_fields] add, in the
    object it is given, one column per destination, last and in the order
    of the list, each holding the cells of column [k]; then, unless
    [save_original] is set, it deletes column [k].  Nothing else changes.
    In particular [{k: []}] with [save_original=False] just deletes the
    column. *)
Theorem map_fields_fans_out
    (h : heap) (df : ref) (t : pd.DataFrame) (k : string) (i : nat)
    (dests : list string) (save_original : bool) :
  h !! df = Some t → well_formed t →
  pd.index_of k (pd.columns t) = Some i →
  NoDup dests → (∀ d, In d dests → ¬ In d (pd.columns t)) →
  map_fields df (PDict [(k, PList (map PStr dests))]) save_original h =
  (Ret df, <[df := if save_original then fan_out t i dests
                   else without_column (fan_out t i dests) i]> h).
Proof. apply map_fields_fans_out_run. Qed.

Lemma map_fields_fans_out_witness :
  map_fields 0%nat (PDict [("a", PList (map PStr ["c"; "d"]))]) false [one_row] =
  (Ret 0%nat,
   <[0%nat := if false then fan_out one_row 0 ["c"; "d"]
              else without_column (fan_out one_row 0 ["c"; "d"]) 0]> [one_row]).
Proof.
  apply (map_fields_fans_out [one_row] 0%nat one_row "a" 0%nat ["c"; "d"] false).
  - reflexivity.
  - well_formed_by_evaluation.
  - reflexivity.
  - apply (bool_decide_unpack _). reflexivity.
  - intros d [<-|[<-|[]]]; simpl; intros [H|[H|[]]]; discriminate H.
Defined.

(** X13: with [save_original=True] a string-valued entry copies.  For a
    well-formed frame in which [k] is column number [i], and a new label
    [d], the entry [{k: d}] makes [map_fields] add a last column [d] holding
    the cells of column [k], which is kept: the result of the list-valued
    entry [{k: [d]}]. *)
Theorem map_fields_copies_column
    (h : heap) (df : ref) (t : pd.DataFrame) (k : string) (i : nat) (d : string) :
  h !! df = Some t → well_formed t →
  pd.index_of k (pd.columns t) = Some i → ¬ In d (pd.columns t) →
  map_fields df (PDict [(k, PStr d)]) true h = (Ret df, <[df := fan_out t i [d]]> h) ∧
  map_fields df (PDict [(k, PStr d)]) true h =
  map_fields df (PDict [(k, PList [PStr d])]) true h.
Proof.
  intros Hdf Hwf Hi Hd.
  assert (Hcopy : map_fields df (PDict [(k, PStr d)]) true h =
                  (Ret df, <[df := fan_out t i [d]]> h)).
  { unfold map_fields. rewrite bind_run, lift_run.
    cbn [py_items List.filter snd is_list py_type pytype_eqb negb map fst for_each].
    rewrite !bind_run, lift_run, dict_get_single_run, !bind_run.
    pose proof Hdf as Hdf'. rewrite <- (fan_out_nil t i) in Hdf'.
    rewrite (getitem_run df (PStr k) h _ Hdf'). cbn [Sem.column].
    rewrite (column_fan_out t k i Hwf Hi []); [|by intros ? []].
    rewrite (setitem_run df d _ h _ _ Hdf'
               (set_column_fan_out t i [] d Hd (λ H, H))).
    reflexivity. }
  split; [done|]. rewrite Hcopy. symmetry.
  apply (map_fields_fans_out_run h df t k i [d] true Hdf Hwf Hi).
  - apply NoDup_singleton.
  - by intros d' [<-|[]].
Qed.

Lemma map_fields_copies_column_witness :
  map_fields 0%nat (PDict [("a", PStr "c")]) true [one_row] =
    (Ret 0%nat, <[0%nat := fan_out one_row 0 ["c"]]> [one_row]) ∧
  map_fields 0%nat (PDict [("a", PStr "c")]) true [one_row] =
  map_fields 0%nat (PDict [("a", PList [PStr "c"])]) true [one_row].
Proof.
  apply (map_fields_copies_column [one_row] 0%nat one_row "a" 0%nat "c").
  - reflexivity.
  - well_formed_by_evaluation.
  - reflexivity.
  - simpl. intros [H|[H|[]]]; discriminate H.
Defined.

(** ** The pipeline of the Record Normalizer *)

Lemma extended_nil (t : pd.DataFrame) : extended t [] = t.
Proof.
  destruct t as [cols rows]. unfold extended. cbn. rewrite app_nil_r. f_equal.
  rewrite <- (map_id rows) at 2. apply map_ext. intros row. apply app_nil_r.
Qed.

Lemma set_column_extended (t : pd.DataFrame) (done : list (string * pd.cell))
    (k : string) (c : pd.cell) :
  ¬ In k (pd.columns t) → ¬ In k (map fst done) →
  pd.set_column (extended t done) k (map (λ _, c) (pd.values (extended t done))) =
  Ret (extended t (done ++ [(k, c)])).
Proof.
  intros Hk Hdone. unfold pd.set_column, extended. cbn [pd.columns pd.values].
  rewrite positions_absent.
  2:{ intros H. apply in_app_or in H as [H|H]; tauto. }
  rewrite map_map, zip_with_default_map, !map_app, <- app_assoc. do 2 f_equal.
  apply map_ext. intros row. by rewrite <- app_assoc.
Qed.

(** The loop of [prepare_object] over the extensions. *)
Lemma extensions_loop (ext : dict) (t : pd.DataFrame) (df : ref) (items : dict) :
  ∀ (cells done : list (string * pd.cell)) (h : heap),
    cells_of items cells →
    h !! df = Some (extended t done) →
    (∀ k v, In (k, v) items → dict_get ext k = Some v) →
    NoDup (map fst done ++ map fst items) →
    (∀ k, In k (map fst items) → ¬ In k (pd.columns t)) →
    for_each (map PStr (map fst items)) (λ key,
      v ← lift (py_getitem (PDict ext) key);
      DF.setitem_scalar df key v) h =
    (Ret tt, <[df := extended t (done ++ cells)]> h).
Proof.
  induction items as [|[k v] items IH]; intros cells done h Hcells Hdf Hget Hnd Hnew.
  - apply Forall2_nil_inv_l in Hcells as ->. cbn [map for_each].
    rewrite app_nil_r. by rewrite list_insert_id.
  - apply Forall2_cons_inv_l in Hcells as ([k' c] & cells' & [Hk Hc] & Hcells' & ->).
    cbn in Hk, Hc. subst k'. cbn [map fst for_each].
    rewrite !bind_run, lift_run.
    rewrite (dict_getitem_Some ext k v (Hget k v (or_introl eq_refl))).
    unfold DF.setitem_scalar. rewrite bind_run, (read_run _ _ _ Hdf), Hc.
    assert (Hk : ¬ In k (pd.columns t)) by (apply Hnew; by left).
    assert (Hfresh : ¬ In k (map fst done)).
    { apply NoDup_app in Hnd as (_ & Hsep & _). intros H.
      apply (Hsep k); [by apply list_elem_of_In|]. by left. }
    rewrite (setitem_run df k _ h _ _ Hdf (set_column_extended t done k c Hk Hfresh)).
    rewrite (IH cells' (done ++ [(k, c)])); try done.
    + by rewrite list_insert_insert_eq, <- app_assoc.
    + apply list_lookup_insert_eq. by eapply lookup_lt_Some.
    + intros k' v' Hk'. apply Hget. by right.
    + rewrite map_app, <- app_assoc. exact Hnd.
    + intros k' Hk'. apply Hnew. by right.
Qed.

(** X14: the order of the pipeline.  For a config the validator accepts,
    when the row filter returns a non-empty frame [f], the extensions are
    literals that make cells and name new, distinct columns, and the mapping
    has string values only, [prepare_object] returns: the frame [f], with
    the extension columns added last, then every column (the extension
    columns too) relabelled by the mapping, then every cell converted by
    [str], then the rows deduplicated. *)
Theorem prepare_object_pipeline
    (h : heap) (df : ref) (config : dict) (conditions : pyval) (ext m : dict)
    (cells : list (string * pd.cell)) (filtered : ref) (h1 : heap) (f : pd.DataFrame) :
  valid_config config = Ret true →
  dict_get config "conditions" = Some conditions →
  dict_get config "extensions" = Some (PDict ext) →
  dict_get config "mapping" = Some (PDict m) →
  df_filter df conditions h = (Ret filtered, h1) →
  h1 !! filtered = Some f → pd.empty f = false →
  cells_of ext cells → NoDup (map fst ext) →
  (∀ k, In k (map fst ext) → ¬ In k (pd.columns f)) →
  (∀ k v, In (k, v) m → ∃ s, v = PStr s) →
  returns (prepare_object df config) h
    (pd.drop_duplicates (pd.applymap_str (relabelled m (extended f cells)))).
Proof.
  intros Hvalid Hconds Hext Hmap Hrun Hf Hne Hcells Hnd Hnew Hm.
  assert (Hlt : (filtered < length h1)%nat) by (by eapply lookup_lt_Some).
  set (f1 := extended f cells). set (f2 := relabelled m f1).
  set (h2 := <[filtered := f1]> h1). set (h3 := <[filtered := f2]> h1).
  exists (S (length h3)), ((h3 ++ [pd.applymap_str f2]) ++
                           [pd.drop_duplicates (pd.applymap_str f2)]).
  split.
  - unfold prepare_object. rewrite bind_run, lift_run, Hvalid. cbn [negb].
    unfold dict_getitem. rewrite Hconds, Hext, Hmap.
    rewrite bind_run, lift_run, bind_run, Hrun.
    unfold DF.empty. rewrite !bind_run, (read_run _ _ _ Hf).
    unfold mret at 1, M_mret, M_ret. rewrite Hne.
    rewrite !bind_run, lift_run. rewrite !bind_run, lift_run, py_iter_dict.
    rewrite !bind_run.
    rewrite (extensions_loop ext f filtered ext cells [] h1); try done.
    + rewrite !bind_run, lift_run.
      assert (Hf1 : h2 !! filtered = Some f1) by (by apply list_lookup_insert_eq).
      rewrite !bind_run. change ([] ++ cells) with cells. fold f1. fold h2.
      rewrite (map_fields_strings_run filtered m h2 f1 Hf1 Hm).
      unfold h2. rewrite list_insert_insert_eq.
      change (pd.mkDataFrame (map (renamed m) (pd.columns f1)) (pd.values f1)) with f2.
      fold h3.
      assert (Hf2 : h3 !! filtered = Some f2) by (by apply list_lookup_insert_eq).
      unfold DF.applymap_str, DF.drop_duplicates.
      rewrite !bind_run, (read_run _ _ _ Hf2).
      unfold alloc at 1. rewrite bind_run, (read_run _ _ _ (lookup_fresh h3 _)).
      unfold alloc. by rewrite length_app, Nat.add_1_r.
    + by rewrite extended_nil.
    + intros k v Hkv. by apply dict_get_NoDup.
  - rewrite lookup_app_r; rewrite length_app, Nat.add_1_r; [|lia].
    by rewrite Nat.sub_diag.
Qed.

Lemma prepare_object_pipeline_witness :
  returns (prepare_object 0%nat status_config) [status_table]
    (pd.drop_duplicates (pd.applymap_str
       (relabelled [("id", PStr "ID"); ("status", PStr "Status")]
          (extended (pd.mkDataFrame ["id"; "status"] [[pd.CInt 1; pd.CStr "active"]])
                    [("source", pd.CStr "x")])))).
Proof.
  apply (prepare_object_pipeline [status_table] 0%nat status_config
           (PDict [("status", PStr "active")]) [("source", PStr "x")]
           [("id", PStr "ID"); ("status", PStr "Status")] [("source", pd.CStr "x")]
           4%nat
           [status_table; status_table; pd.empty_frame; status_table;
            pd.mkDataFrame ["id"; "status"] [[pd.CInt 1; pd.CStr "active"]]]
           (pd.mkDataFrame ["id"; "status"] [[pd.CInt 1; pd.CStr "active"]])).
  - reflexivity.
  - reflexivity.
  - reflexivity.
  - reflexivity.
  - vm_compute. reflexivity.
  - reflexivity.
  - reflexivity.
  - repeat constructor.
  - apply (bool_decide_unpack _). reflexivity.
  - intros k [<-|[]]. simpl. intros [H|[H|[]]]; discriminate H.
  - intros k v [[= <- <-]|[[= <- <-]|[]]]; by eexists.
Defined.

(** ** How Conditions compose *)

Lemma meets_forall (t : pd.DataFrame) (d : dict) (row : list pd.cell) :
  meets t d row = true ↔
  ∀ k v, In (k, v) d → scalar_test v (cell_of t k row) = true.
Proof.
  unfold meets. rewrite forallb_forall. split.
  - intros H k v Hkv. apply (H (k, v) Hkv).
  - intros H [k v] Hkv. by apply H.
Qed.

Lemma meets_permutation (t : pd.DataFrame) (d d' : dict) (row : list pd.cell) :
  Permutation d d' → meets t d row = meets t d' row.
Proof.
  intros Hp. apply eq_true_iff_eq. rewrite !meets_forall.
  split; intros H k v Hkv; apply H.
  - apply list_elem_of_In. rewrite Hp. by apply list_elem_of_In.
  - apply list_elem_of_In. rewrite <- Hp. by apply list_elem_of_In.
Qed.

(** X15: the order of the keys does not matter.  Two Conditions with the
    same items in different orders, whose keys name columns of the table
    and whose specs are strings, integers or [None], make the Condition
    Evaluator return the same frame. *)
Theorem scalar_condition_key_order
    (h : heap) (df : ref) (t : pd.DataFrame) (d d' : dict) :
  h !! df = Some t → well_formed t → NoDup (map fst d) → Permutation d d' →
  (∀ k v, In (k, v) d → In k (pd.columns t) ∧ type_in v [TStr; TInt; TNone] = true) →
  ∃ out, returns (__df_filter df (PDict d)) h out ∧
         returns (__df_filter df (PDict d')) h out.
Proof.
  intros Hdf Hwf Hnd Hp Hd.
  exists (pd.mkDataFrame (pd.columns t) (List.filter (meets t d) (pd.values t))).
  split.
  - apply (evals_returns 0). rewrite <- (scalar_conjunction_sem t d Hwf Hnd Hd).
    apply filter_refines; [done|lia].
  - apply (evals_returns 0).
    replace (Ret _) with (Sem.filter t (PDict d')).
    { apply filter_refines; [done|lia]. }
    rewrite scalar_conjunction_sem; [|done| |].
    + do 2 f_equal. apply filter_ext. intros row. symmetry. by apply meets_permutation.
    + by rewrite <- Hp.
    + intros k v Hkv. apply Hd. apply list_elem_of_In. rewrite Hp.
      by apply list_elem_of_In.
Qed.

Lemma scalar_condition_key_order_witness :
  ∃ out, returns (__df_filter 0%nat (PDict [("a", PInt 1); ("b", PStr "x")]))
                 [three_rows] out ∧
         returns (__df_filter 0%nat (PDict [("b", PStr "x"); ("a", PInt 1)]))
                 [three_rows] out.
Proof.
  apply (scalar_condition_key_order [three_rows] 0%nat three_rows
           [("a", PInt 1); ("b", PStr "x")] [("b", PStr "x"); ("a", PInt 1)]).
  - reflexivity.
  - well_formed_by_evaluation.
  - apply (bool_decide_unpack _). reflexivity.
  - apply perm_swap.
  - intros k v [[= <- <-]|[[= <- <-]|[]]]; (split; [simpl; auto|reflexivity]).
Defined.

Lemma filter_split {A} (p : A → bool) (l : list A) :
  Permutation (List.filter (λ x, negb (p x)) l ++ List.filter p l) l.
Proof.
  induction l as [|x l IH]; [done|]. cbn. destruct (p x); cbn.
  - by rewrite <- Permutation_middle, IH.
  - by rewrite IH.
Qed.

(** X16: the two null tests split the table.  For a column [c] of a
    well-formed table, the rows kept by [{c: "not null"}] together with
    the rows kept by [{c: None}] are the rows of the table, each exactly
    once. *)
Theorem null_tests_split_table
    (h : heap) (df : ref) (t : pd.DataFrame) (c : string) :
  h !! df = Some t → well_formed t → In c (pd.columns t) →
  ∃ present missing,
    returns (__df_filter df (PDict [(c, PStr "not null")])) h present ∧
    returns (__df_filter df (PDict [(c, PNone)])) h missing ∧
    Permutation (pd.values present ++ pd.values missing) (pd.values t).
Proof.
  intros Hdf Hwf Hin.
  assert (Hrun : ∀ v, type_in v [TStr; TInt; TNone] = true →
    returns (__df_filter df (PDict [(c, v)])) h
      (pd.mkDataFrame (pd.columns t)
         (List.filter (λ row, scalar_test v (cell_of t c row)) (pd.values t)))).
  { intros v Hv. apply (evals_returns 0).
    rewrite <- (narrow_scalar t c v (proj1 Hwf) Hin Hv), <- (filter_single t c v Hin).
    apply filter_refines; [done|lia]. }
  eexists _, _. split; [apply (Hrun (PStr "not null")); reflexivity|].
  split; [apply (Hrun PNone); reflexivity|].
  cbn [pd.values]. apply (filter_split (λ row, pd.isna_cell (cell_of t c row))).
Qed.

Lemma null_tests_split_table_witness :
  ∃ present missing,
    returns (__df_filter 0%nat (PDict [("b", PStr "not null")])) [three_rows] present ∧
    returns (__df_filter 0%nat (PDict [("b", PNone)])) [three_rows] missing ∧
    Permutation (pd.values present ++ pd.values missing) (pd.values three_rows).
Proof.
  apply (null_tests_split_table [three_rows] 0%nat three_rows "b").
  - reflexivity.
  - well_formed_by_evaluation.
  - simpl. auto.
Defined.

Lemma raises_evals (n : nat) (m : M ref) (h : heap) (o : outcome pd.DataFrame) (e : exn) :
  raises m h e → evals n m h o → o = Raise e.
Proof.
  intros (h1 & Hm) (h2 & _ & Ho). destruct o as [t|e'|].
  - destruct Ho as (r & Hm' & _). congruence.
  - congruence.
  - congruence.
Qed.

Lemma union_loop_raises (t : pd.DataFrame) (pre : list pyval) :
  ∀ (ms : list pd.DataFrame) (acc : pd.DataFrame) (c : pyval) (post : list pyval) (e : exn),
    well_formed t → narrower acc t →
    Forall2 (λ c m, Sem.filter t c = Ret m) pre ms →
    Sem.filter t c = Raise e →
    Sem.union_loop t (pre ++ c :: post) acc = Raise e.
Proof.
  induction pre as [|c0 pre IH]; intros ms acc c post e Ht Hacc Hpre Hc.
  - cbn [app Sem.union_loop]. by rewrite Hc.
  - apply Forall2_cons_inv_l in Hpre as (m & ms' & Hm & Hpre' & ->).
    cbn [app Sem.union_loop]. rewrite Hm. cbn [mbind outcome_mbind outcome_bind].
    destruct (append_narrower t acc m Hacc (filter_shape _ _ _ Hm Ht))
      as (acc' & Happ & _ & Hacc').
    rewrite Happ. cbn [mbind outcome_mbind outcome_bind]. by eapply IH.
Qed.

(** X17: one failing Condition fails the whole list.  When the Conditions
    before it each evaluate to a frame and the Condition [c] makes the
    Condition Evaluator raise [e], [df_filter] with the list raises [e]:
    the matches collected so far are not returned. *)
Theorem df_filter_list_propagates_error
    (h : heap) (df : ref) (t : pd.DataFrame) (pre post : list pyval) (c : pyval)
    (ms : list pd.DataFrame) (e : exn) :
  h !! df = Some t → well_formed t →
  Forall2 (λ condition m, returns (__df_filter df condition) h m) pre ms →
  raises (__df_filter df c) h e →
  raises (df_filter df (PList (pre ++ c :: post))) h e.
Proof.
  intros Hdf Hwf Hpre Hc. apply (evals_raises (length h)).
  replace (Raise e) with (Sem.df_filter t (PList (pre ++ c :: post))).
  { by apply df_filter_refines. }
  cbn. apply (union_loop_raises t pre ms); [done|apply narrower_empty| |].
  - eapply Forall2_impl; [exact Hpre|]. intros c' m Hret. cbn in Hret.
    eapply returns_evals; [exact Hret|]. apply (filter_refines 0); [done|lia].
  - eapply raises_evals; [exact Hc|]. apply (filter_refines 0); [done|lia].
Qed.

Lemma df_filter_list_propagates_error_witness :
  raises (df_filter 0%nat (PList ([PDict [("a", PInt 1)]] ++
                                  PDict [("b", PBool true)] :: [PDict [("a", PInt 1)]])))
         [one_row] (Exception "Unexpected condition value format").
Proof.
  apply (df_filter_list_propagates_error [one_row] 0%nat one_row
           [PDict [("a", PInt 1)]] [PDict [("a", PInt 1)]] (PDict [("b", PBool true)])
           [one_row]).
  - reflexivity.
  - well_formed_by_evaluation.
  - repeat constructor. eexists _, _. split; [vm_compute; reflexivity|reflexivity].
  - eexists. vm_compute. reflexivity.
Defined.

(** X18: a list of one Condition is that Condition.  For a well-formed
    table, whatever [df_filter] returns for a single Condition it also
    returns for the one-element list holding that Condition. *)
Theorem df_filter_singleton_list
    (h : heap) (df : ref) (t : pd.DataFrame) (d : dict) (out : pd.DataFrame) :
  h !! df = Some t → well_formed t →
  returns (df_filter df (PDict d)) h out →
  returns (df_filter df (PList [PDict d])) h out.
Proof.
  intros Hdf Hwf Hret.
  assert (Hsem : Sem.filter t (PDict d) = Ret out).
  { eapply returns_evals; [exact Hret|]. by apply (df_filter_refines df (PDict d)). }
  apply (evals_returns (length h)).
  replace (Ret out) with (Sem.df_filter t (PList [PDict d])).
  { by apply df_filter_refines. }
  cbn [Sem.df_filter py_type pytype_eqb andb py_iter mbind outcome_mbind outcome_bind
       Sem.union_loop].
  rewrite Hsem. cbn [mbind outcome_mbind outcome_bind].
  rewrite append_empty_l; [done|]. by apply (filter_shape t (PDict d)).
Qed.

Lemma df_filter_singleton_list_witness :
  returns (df_filter 0%nat (PList [PDict [("a", PInt 2)]])) [three_rows]
          (pd.mkDataFrame ["a"; "b"] [[pd.CInt 2; pd.CNone]]).
Proof.
  apply (df_filter_singleton_list [three_rows] 0%nat three_rows [("a", PInt 2)]).
  - reflexivity.
  - well_formed_by_evaluation.
  - eexists _, _. split; [vm_compute; reflexivity|reflexivity].
Defined.

(** ** The failing path of the Field Mapper *)

Lemma column_absent (t : pd.DataFrame) (k : string) :
  ¬ In k (pd.columns t) → pd.column t k = Raise (KeyError (PStr k)).
Proof. intros H. unfold pd.column. by rewrite positions_absent. Qed.

(** X19: the first missing source stops [map_fields] before any change.
    With [save_original=True], when the first entry of the mapping whose
    value is not a list has a source [k] that is not a column of the frame,
    [map_fields] raises [KeyError(k)] and the frame is as it was. *)
Theorem map_fields_first_source_missing
    (h : heap) (df : ref) (t : pd.DataFrame) (lists rest : dict) (k : string) (v : pyval) :
  h !! df = Some t →
  (∀ k' v', In (k', v') lists → is_list v' = true) →
  is_list v = false → ¬ In k (pd.columns t) →
  map_fields df (PDict (lists ++ (k, v) :: rest)) true h = (Raise (KeyError (PStr k)), h).
Proof.
  intros Hdf Hlists Hv Hk. unfold map_fields.
  rewrite bind_run, lift_run. cbn [py_items].
  rewrite !List.filter_app, (filter_none (λ kv, negb (is_list (snd kv))) lists).
  2:{ intros [k' v'] Hkv. cbn. by rewrite (Hlists k' v' Hkv). }
  cbn [app List.filter snd]. rewrite Hv. cbn [negb map fst for_each].
  rewrite !bind_run, lift_run. unfold dict_getitem. cbn [dict_get].
  rewrite String.eqb_refl, !bind_run, (getitem_run df (PStr k) h t Hdf).
  cbn [Sem.column]. by rewrite (column_absent t k Hk).
Qed.

Lemma map_fields_first_source_missing_witness :
  map_fields 0%nat
    (PDict ([("b", PList [PStr "c"])] ++ ("x", PStr "y") :: [("a", PStr "z")])) true
    [one_row] = (Raise (KeyError (PStr "x")), [one_row]).
Proof.
  apply (map_fields_first_source_missing [one_row] 0%nat one_row
           [("b", PList [PStr "c"])] [("a", PStr "z")] "x" (PStr "y")).
  - reflexivity.
  - intros k' v' [[= <- <-]|[]]. reflexivity.
  - reflexivity.
  - simpl. intros [H|[H|[]]]; discriminate H.
Defined.

(** X20: a later missing source leaves the frame half mapped.  With
    [save_original=True] and the mapping [{k1: d1, k2: v2}], where [k1] is
    column number [i] of a well-formed frame, [d1] is a new label and [k2]
    is neither a column nor [d1], [map_fields] raises [KeyError(k2)] after
    it has added the column [d1]: the caller's frame is changed although
    the call failed. *)
Theorem map_fields_fails_half_way
    (h : heap) (df : ref) (t : pd.DataFrame) (k1 d1 k2 : string) (v2 : pyval) (i : nat) :
  h !! df = Some t → well_formed t →
  pd.index_of k1 (pd.columns t) = Some i → ¬ In d1 (pd.columns t) →
  ¬ In k2 (pd.columns t) → k2 ≠ d1 → is_list v2 = false →
  map_fields df (PDict [(k1, PStr d1); (k2, v2)]) true h =
  (Raise (KeyError (PStr k2)), <[df := fan_out t i [d1]]> h).
Proof.
  intros Hdf Hwf Hi Hd1 Hk2 Hne Hv2.
  destruct (index_of_positions k1 _ i (proj1 Hwf) Hi) as (_ & _ & Hin1).
  assert (Hk12 : String.eqb k1 k2 = false).
  { apply String.eqb_neq. intros ->. contradiction. }
  unfold map_fields. rewrite bind_run, lift_run.
  cbn [py_items List.filter snd is_list py_type pytype_eqb negb].
  fold (is_list v2). rewrite Hv2. cbn [negb map fst for_each].
  rewrite !bind_run, lift_run. unfold dict_getitem. cbn [dict_get].
  rewrite String.eqb_refl, !bind_run.
  pose proof Hdf as Hdf'. rewrite <- (fan_out_nil t i) in Hdf'.
  rewrite (getitem_run df (PStr k1) h _ Hdf'). cbn [Sem.column].
  rewrite (column_fan_out t k1 i Hwf Hi []); [|by intros ? []].
  rewrite (setitem_run df d1 _ h _ _ Hdf' (set_column_fan_out t i [] d1 Hd1 (λ H, H))).
  rewrite !bind_run, lift_run. rewrite Hk12, String.eqb_refl, !bind_run.
  rewrite (getitem_run df (PStr k2) _ (fan_out t i [d1])).
  2:{ apply list_lookup_insert_eq. by eapply lookup_lt_Some. }
  cbn [Sem.column]. rewrite column_absent; [done|].
  cbn [fan_out pd.columns app]. intros H. apply in_app_or in H as [H|[H|[]]]; [done|].
  by apply Hne.
Qed.

Lemma map_fields_fails_half_way_witness :
  map_fields 0%nat (PDict [("a", PStr "c"); ("x", PStr "y")]) true [one_row] =
  (Raise (KeyError (PStr "x")), <[0%nat := fan_out one_row 0 ["c"]]> [one_row]).
Proof.
  apply (map_fields_fails_half_way [one_row] 0%nat one_row "a" "c" "x" (PStr "y") 0%nat).
  - reflexivity.
  - well_formed_by_evaluation.
  - reflexivity.
  - simpl. intros [H|[H|[]]]; discriminate H.
  - simpl. intros [H|[H|[]]]; discriminate H.
  - discriminate.
  - reflexivity.
Defined.
